(** * easy_thumbnails.files: naming, freshness and storage protocol

    A shallow embedding of [easy_thumbnails/files.py] (Python 2) and the
    properties its specification states about it.

    - [Py]        Python values, truthiness, [str], exceptions.
    - [PosixPath] the [os.path] functions the module calls.
    - [Naming]    the option dictionary and [Thumbnailer.get_thumbnail_name].
    - [Effects]   calls into the collaborators (storage backends, the
                  operating system, the image engine, Django's [FieldFile])
                  as a small free monad, run against any environment.
    - [Files]     the classes of the module.

    Definitions come first, all lemmas after them. *)

From Stdlib Require Import ZArith Lia Bool List Ascii String Permutation
  Sorted DecimalString.
From stdpp Require Import gmap strings.
Import ListNotations.

Local Open Scope string_scope.
Local Open Scope Z_scope.

(* ===================================================================== *)
(** ** Python values *)
(* ===================================================================== *)

Module Py.

(** The exceptions the module raises, catches or lets through.
    [Unmodelled] is not a Python exception: it marks a behaviour of
    Python that lies outside the fragment embedded here. *)
Inductive exn :=
| KeyError
| TypeError
| ValueError
| AttributeError
| NotImplementedError
| OSError
| IOError
| OtherError (what : string)
| Unmodelled (what : string).

Inductive res (A : Type) :=
| Ok (a : A)
| Raise (e : exn).
Arguments Ok {A} a.
Arguments Raise {A} e.

Definition res_bind {A B} (r : res A) (k : A -> res B) : res B :=
  match r with
  | Ok a => k a
  | Raise e => Raise e
  end.

Definition res_map {A B} (f : A -> B) (r : res A) : res B :=
  res_bind r (fun a => Ok (f a)).

#[global] Instance res_mret : MRet res := @Ok.
#[global] Instance res_mbind : MBind res := fun A B k r => res_bind r k.

Definition is_NotImplementedError (e : exn) : bool :=
  match e with NotImplementedError => true | _ => false end.

Definition is_OSError (e : exn) : bool :=
  match e with OSError => true | _ => false end.

(** Option values: [None], booleans, (plain) integers, byte strings and
    tuples of integers such as a size. *)
Inductive pyval :=
| PNone
| PBool (b : bool)
| PInt (z : Z)
| PStr (s : string)
| PTuple (l : list Z).

(** [bool(v)] *)
Definition truthy (v : pyval) : bool :=
  match v with
  | PNone => false
  | PBool b => b
  | PInt z => negb (z =? 0)
  | PStr s => negb (String.eqb s "")
  | PTuple l => match l with [] => false | _ => true end
  end.

(** [v is True] *)
Definition is_True (v : pyval) : bool :=
  match v with PBool true => true | _ => false end.

(** [bool(s)] for a string. *)
Definition str_truthy (s : string) : bool := negb (String.eqb s "").

(** [str(z)] for an integer. *)
Definition str_int (z : Z) : string := NilZero.string_of_int (Z.to_int z).

(** [sys.maxint] of a 64-bit build: beyond it an integer is a [long]. *)
Definition sys_maxint : Z := 2 ^ 63 - 1.

(** [repr(z)]: a [long] carries the suffix [L]. *)
Definition repr_int (z : Z) : string :=
  if (- sys_maxint - 1 <=? z) && (z <=? sys_maxint)
  then str_int z
  else str_int z ++ "L".

(** [sep.join(l)] *)
Fixpoint join (sep : string) (l : list string) : string :=
  match l with
  | [] => ""
  | [x] => x
  | x :: r => x ++ sep ++ join sep r
  end.

(** [str(t)] for a tuple: its items by [repr]; a 1-tuple keeps its comma. *)
Definition str_tuple (l : list Z) : string :=
  match l with
  | [x] => "(" ++ repr_int x ++ ",)"
  | _ => "(" ++ join ", " (map repr_int l) ++ ")"
  end.

(** [str(v)], which is what [%s] renders. *)
Definition str (v : pyval) : string :=
  match v with
  | PNone => "None"
  | PBool true => "True"
  | PBool false => "False"
  | PInt z => str_int z
  | PStr s => s
  | PTuple l => str_tuple l
  end.

(** [c.lower()] in the C locale. *)
Definition lower_ascii (c : ascii) : ascii :=
  let n := nat_of_ascii c in
  if (Nat.leb 65 n && Nat.leb n 90)%bool then ascii_of_nat (n + 32) else c.

Fixpoint lower (s : string) : string :=
  match s with
  | EmptyString => EmptyString
  | String c r => String (lower_ascii c) (lower r)
  end.

(** [s.startswith(t)] and [s.endswith(t)] *)
Definition startswith (s t : string) : bool := String.prefix t s.

Fixpoint endswith (s t : string) : bool :=
  String.eqb s t ||
  match s with
  | EmptyString => false
  | String _ r => endswith r t
  end.

(** [sub in s] *)
Fixpoint contains (sub s : string) : bool :=
  String.prefix sub s ||
  match s with
  | EmptyString => false
  | String _ r => contains sub r
  end.

(** [tuple(v)] with each item already rendered by [str], which is all the
    module does with them. A string is the tuple of its characters; a
    value that is not iterable raises [TypeError]. *)
Definition tuple_strs (v : pyval) : res (list string) :=
  match v with
  | PTuple l => Ok (map str_int l)
  | PStr s => Ok (map (fun c => String c EmptyString) (list_ascii_of_string s))
  | _ => Raise TypeError
  end.

(** ['%sx%s' % t]: two items, or [TypeError]. *)
Definition format_size (t : list string) : res string :=
  match t with
  | [w; h] => Ok (w ++ "x" ++ h)
  | _ => Raise TypeError
  end.

(** ['q%s' % v]: a tuple on the right of [%] is the argument list. *)
Definition format_quality (v : pyval) : res string :=
  match v with
  | PTuple [x] => Ok ("q" ++ str_int x)
  | PTuple _ => Raise TypeError
  | _ => Ok ("q" ++ str v)
  end.

(** [template % {'opts': opts}].

    Modelled conversions: literal text, [%%] and [%(key)s]; the key is
    looked up as soon as it is read, so an unknown key raises [KeyError].
    Flags, widths and the other conversion types are [Unmodelled]. *)
Inductive fmt_state :=
| FLit
| FPercent
| FKey (depth : nat) (acc : string)
| FConv.

Fixpoint format_scan (opts : string) (st : fmt_state) (t : string)
  : res string :=
  match t with
  | EmptyString =>
      match st with
      | FLit => Ok ""
      | _ => Raise ValueError
      end
  | String c r =>
      match st with
      | FLit =>
          if Ascii.eqb c "%" then format_scan opts FPercent r
          else res_map (String c) (format_scan opts FLit r)
      | FPercent =>
          if Ascii.eqb c "%" then res_map (String c) (format_scan opts FLit r)
          else if Ascii.eqb c "(" then format_scan opts (FKey 0 "") r
          else Raise (Unmodelled "conversion")
      | FKey depth acc =>
          if Ascii.eqb c ")" then
            match depth with
            | O => if String.eqb acc "opts" then format_scan opts FConv r
                   else Raise KeyError
            | S d => format_scan opts (FKey d (acc ++ String c "")) r
            end
          else if Ascii.eqb c "(" then
            format_scan opts (FKey (S depth) (acc ++ String c "")) r
          else format_scan opts (FKey depth (acc ++ String c "")) r
      | FConv =>
          if Ascii.eqb c "s"
          then res_map (String.append opts) (format_scan opts FLit r)
          else Raise (Unmodelled "conversion")
      end
  end.

Definition format_opts (template opts : string) : res string :=
  format_scan opts FLit template.

End Py.

(* ===================================================================== *)
(** ** [os.path] on POSIX (posixpath of Python 2.6 and 2.7) *)
(* ===================================================================== *)

Module PosixPath.

(** [p.rfind(c)], [None] standing for Python's [-1]. *)
Fixpoint rfind (c : ascii) (p : string) : option nat :=
  match p with
  | EmptyString => None
  | String d r =>
      match rfind c r with
      | Some i => Some (S i)
      | None => if Ascii.eqb d c then Some O else None
      end
  end.

Definition rfindZ (c : ascii) (p : string) : Z :=
  match rfind c p with
  | Some i => Z.of_nat i
  | None => -1
  end.

(** [p[:i]] and [p[i:]] *)
Definition take (i : nat) (p : string) : string := String.substring 0 i p.
Definition drop (i : nat) (p : string) : string :=
  String.substring i (String.length p - i) p.

(** [s == '/' * len(s)] *)
Fixpoint all_slashes (s : string) : bool :=
  match s with
  | EmptyString => true
  | String c r => Ascii.eqb c "/" && all_slashes r
  end.

(** [s.rstrip('/')] *)
Fixpoint rstrip_slash (s : string) : string :=
  match s with
  | EmptyString => EmptyString
  | String c r =>
      let r' := rstrip_slash r in
      if Ascii.eqb c "/" && String.eqb r' "" then EmptyString
      else String c r'
  end.

(** [os.path.split(p)] *)
Definition split (p : string) : string * string :=
  let i := Z.to_nat (rfindZ "/" p + 1) in
  let head := take i p in
  let tail := drop i p in
  if Py.str_truthy head && negb (all_slashes head)
  then (rstrip_slash head, tail)
  else (head, tail).

(** [os.path.dirname(p)] *)
Definition dirname (p : string) : string := fst (split p).

(** Some character of [s] is not a dot. *)
Fixpoint has_non_dot (s : string) : bool :=
  match s with
  | EmptyString => false
  | String c r => negb (Ascii.eqb c ".") || has_non_dot r
  end.

(** [os.path.splitext(p)]: the extension starts at the last dot of the
    last component, leading dots of that component apart. *)
Definition splitext (p : string) : string * string :=
  let sepIndex := rfindZ "/" p in
  let dotIndex := rfindZ "." p in
  if dotIndex >? sepIndex then
    let filenameIndex := Z.to_nat (sepIndex + 1) in
    if has_non_dot
         (String.substring filenameIndex (Z.to_nat dotIndex - filenameIndex) p)
    then (take (Z.to_nat dotIndex) p, drop (Z.to_nat dotIndex) p)
    else (p, "")
  else (p, "").

(** One round of the loop of [os.path.join]. *)
Definition join_step (path b : string) : string :=
  if Py.startswith b "/" then b
  else if String.eqb path "" || Py.endswith path "/" then path ++ b
  else path ++ "/" ++ b.

(** [os.path.join(a, *p)] *)
Definition join (a : string) (p : list string) : string :=
  fold_left join_step p a.

End PosixPath.

(* ===================================================================== *)
(** ** Canonical thumbnail names *)
(* ===================================================================== *)

Module Naming.
Import Py.

(** A [dict] with string keys, as the list of its items in the order the
    dictionary yields them, whichever that is (in Python 2 it depends on
    the hashes and on the history of the dictionary). A dictionary holds
    a key once: [wf_dict]. *)
Definition dict := list (string * pyval).

Definition keys (d : dict) : list string := fst <$> d.

Definition wf_dict (d : dict) : Prop := NoDup (keys d).

(** [d.get(k)] *)
Fixpoint dict_get (k : string) (d : dict) : option pyval :=
  match d with
  | [] => None
  | (k', v) :: r => if String.eqb k' k then Some v else dict_get k r
  end.

(** [d[k] = v], for a dictionary that yields its items in the order of
    their insertion: an existing key keeps its place, a new one comes
    last. *)
Fixpoint dict_set (k : string) (v : pyval) (d : dict) : dict :=
  match d with
  | [] => [(k, v)]
  | (k', v') :: r =>
      if String.eqb k' k then (k, v) :: r else (k', v') :: dict_set k v r
  end.

(** The items left after [d.pop(k)]. *)
Fixpoint dict_remove (k : string) (d : dict) : dict :=
  match d with
  | [] => []
  | (k', v) :: r =>
      if String.eqb k' k then r else (k', v) :: dict_remove k r
  end.

(** [d.pop(k)]: the value and the remaining dictionary, or [KeyError]. *)
Definition dict_pop (k : string) (d : dict) : res (pyval * dict) :=
  match dict_get k d with
  | Some v => Ok (v, dict_remove k d)
  | None => Raise KeyError
  end.

(** [d.pop(k, default)] *)
Definition dict_pop_default (k : string) (default : pyval) (d : dict)
  : pyval * dict :=
  match dict_get k d with
  | Some v => (v, dict_remove k d)
  | None => (default, d)
  end.

(** The order [list.sort] puts items [(k, v)] in. Tuples compare by their
    first differing component and the keys of one dictionary all differ,
    so the keys decide; strings compare byte by byte. *)
Definition item_le (a b : string * pyval) : bool :=
  String.leb (fst a) (fst b).

Fixpoint insert_item (a : string * pyval) (l : list (string * pyval))
  : list (string * pyval) :=
  match l with
  | [] => [a]
  | b :: r => if item_le a b then a :: l else b :: insert_item a r
  end.

(** [opts.sort()] (a stable sort). *)
Fixpoint sort_items (l : list (string * pyval)) : list (string * pyval) :=
  match l with
  | [] => []
  | a :: r => insert_item a (sort_items r)
  end.

(** [c and x or y] on strings. *)
Definition and_or (c : bool) (x y : string) : string :=
  if c then (if str_truthy x then x else y) else y.

(** ['%s' % (v is not True and '%s-%s' % (k, v) or k)] *)
Definition render_option (kv : string * pyval) : string :=
  let (k, v) := kv in
  and_or (negb (is_True v)) (k ++ "-" ++ str v) k.

(** The token the specification gives a remaining option: the key alone
    for the value [True], else the key, a dash and the value. *)
Definition option_token (kv : string * pyval) : string :=
  if is_True (snd kv) then fst kv else fst kv ++ "-" ++ str (snd kv).

(** Keys in increasing byte order. *)
Definition key_lt (a b : string * pyval) : Prop :=
  String.ltb (fst a) (fst b) = true.

(** [[render(k, v) for k, v in opts if v]] *)
Definition render_options (opts : list (string * pyval)) : list string :=
  map render_option (filter (fun kv => truthy (snd kv)) opts).

(** The settings a [Thumbnailer] reads through [utils.get_setting]
    ([BASEDIR], [SUBDIR], [PREFIX], [QUALITY], [EXTENSION]); an unset
    extension is the empty string. *)
Record settings := {
  thumbnail_basedir : string;
  thumbnail_subdir : string;
  thumbnail_prefix : string;
  thumbnail_quality : pyval;
  thumbnail_extension : string
}.

(** [a or b or c] on strings. *)
Definition or3 (a b c : string) : string :=
  if str_truthy a then a else if str_truthy b then b else c.

(** The option string of a thumbnail: the size and quality tokens, then
    one token per remaining truthy option, joined by underscores. *)
Definition all_opts_of (cfg : settings) (thumbnail_options : dict)
  : res string :=
  '(size_value, thumbnail_options) ← dict_pop "size" thumbnail_options;
  size ← tuple_strs size_value;
  let '(quality, thumbnail_options) :=
    dict_pop_default "quality" (thumbnail_quality cfg) thumbnail_options in
  size_token ← format_size size;
  quality_token ← format_quality quality;
  let initial_opts := [size_token; quality_token] in
  let opts := sort_items thumbnail_options in
  let opts := render_options opts in
  Ok (Py.join "_" (initial_opts ++ opts)).

(** [Thumbnailer.get_thumbnail_name]; [name] is [self.name], which may be
    [None], and then [os.path.split] fails on it. *)
Definition get_thumbnail_name (cfg : settings) (name : option string)
    (thumbnail_options : dict) : res string :=
  match name with
  | None => Raise AttributeError
  | Some name =>
      let '(path, source_filename) := PosixPath.split name in
      let source_extension :=
        PosixPath.drop 1 (snd (PosixPath.splitext source_filename)) in
      let filename := thumbnail_prefix cfg ++ source_filename in
      let extension :=
        or3 (thumbnail_extension cfg) (lower source_extension) "jpg" in
      all_opts ← all_opts_of cfg thumbnail_options;
      basedir ← format_opts (thumbnail_basedir cfg) all_opts;
      subdir ← format_opts (thumbnail_subdir cfg) all_opts;
      let filename_parts :=
        if contains "%(opts)s" (thumbnail_basedir cfg)
           || contains "%(opts)s" (thumbnail_subdir cfg)
        then
          if negb (String.eqb extension source_extension)
          then [filename; extension]
          else [filename]
        else [filename; all_opts; extension] in
      let filename := Py.join "." filename_parts in
      Ok (PosixPath.join basedir [path; subdir; filename])
  end.

(** The settings of the specification's scenarios: empty templates and
    prefix, the extension taken from the source. *)
Definition default_settings : settings :=
  {| thumbnail_basedir := "";
     thumbnail_subdir := "";
     thumbnail_prefix := "";
     thumbnail_quality := PInt 85;
     thumbnail_extension := "" |}.

(** Two items that the name cannot tell apart: the same item, or two
    options under one key that are kept or dropped alike and give one
    token. *)
Definition alike (a b : string * pyval) : Prop :=
  a = b \/
  (fst a = fst b /\ fst a <> "size" /\ fst a <> "quality" /\
   truthy (snd a) = truthy (snd b) /\ render_option a = render_option b).

End Naming.

(* ===================================================================== *)
(** ** Calls into the collaborators *)
(* ===================================================================== *)

Module Effects.
Import Py Naming.

(** A storage backend object; [!=] on two of them compares identities. *)
Inductive storage := Storage (id : nat).

Definition storage_eqb (a b : storage) : bool :=
  match a, b with Storage i, Storage j => Nat.eqb i j end.

(** [django.core.files.storage.default_storage] and the module's
    [DEFAULT_THUMBNAIL_STORAGE], two objects. *)
Definition default_storage : storage := Storage 0.
Definition DEFAULT_THUMBNAIL_STORAGE : storage := Storage 1.

Definition bytes := string.

(** What a file object reads from: bytes held in memory ([ContentFile])
    or the object stored under a name, opened on first use. *)
Inductive file_ref :=
| InMemory (data : bytes)
| Stored (s : storage) (stored_name : string).

(** A decoded image (PIL), with its [size]. *)
Record image := Image { im_size : Z * Z; im_pixels : bytes }.

(** Calls that read: the environment answers, the world stays as it is.
    [StoragePath] and [StorageExists] are a storage's [path] and
    [exists]; [OsIsFile], [OsExists] and [OsGetMTime] are [os.path.isfile],
    [os.path.exists] and [os.path.getmtime], whose times the module only
    compares and which are integers here; [ImageOpen] is the [image]
    property (PIL's [Image.open], loaded), [ProcessImage] is
    [engine.process_image] and [SaveImage] is what [engine.save_image]
    lets read. *)
Inductive query : Type -> Type :=
| StoragePath (s : storage) (name : string) : query string
| StorageExists (s : storage) (name : string) : query bool
| OsIsFile (path : string) : query bool
| OsExists (path : string) : query bool
| OsGetMTime (path : string) : query Z
| ImageOpen (f : file_ref) : query image
| ProcessImage (im : image) (thumbnail_options : dict) : query image
| SaveImage (im : image) (quality : pyval) : query bytes.

(** Calls that write. [StorageDelete] and [StorageSave] are a storage's
    [delete] and [save], [OsMakeDirs] is [os.makedirs],
    [OsOpenWClose path] is [open(path, 'w').close()];
    [FieldFileSave] is Django's [FieldFile.save], which stores the content
    on the field's storage and answers with the name it set as
    [self.name]. *)
Inductive command : Type -> Type :=
| StorageDelete (s : storage) (name : string) : command unit
| StorageSave (s : storage) (name : string) (content : file_ref)
    : command string
| OsMakeDirs (path : string) : command unit
| OsOpenWClose (path : string) : command unit
| FieldFileSave (s : storage) (name : string) (content : file_ref)
    : command string.

(** A computation: it returns, raises, or calls out and goes on with the
    answer, which may itself be an exception. *)
Inductive prog (A : Type) : Type :=
| Ret (a : A)
| Throw (e : exn)
| Ask {X : Type} (q : query X) (k : res X -> prog A)
| Do {X : Type} (c : command X) (k : res X -> prog A).
Arguments Ret {A} a.
Arguments Throw {A} e.
Arguments Ask {A X} q k.
Arguments Do {A X} c k.

Fixpoint bind {A B} (p : prog A) (f : A -> prog B) : prog B :=
  match p with
  | Ret a => f a
  | Throw e => Throw e
  | Ask q k => Ask q (fun r => bind (k r) f)
  | Do c k => Do c (fun r => bind (k r) f)
  end.

(** [try: p / except: h] *)
Fixpoint catch {A} (p : prog A) (h : exn -> prog A) : prog A :=
  match p with
  | Ret a => Ret a
  | Throw e => h e
  | Ask q k => Ask q (fun r => catch (k r) h)
  | Do c k => Do c (fun r => catch (k r) h)
  end.

Definition of_res {A} (r : res A) : prog A :=
  match r with
  | Ok a => Ret a
  | Raise e => Throw e
  end.

Definition ask {X} (q : query X) : prog X := Ask q of_res.
Definition do {X} (c : command X) : prog X := Do c of_res.

(** [try: p / except E: ...]: the outcome of [p] as a value, which the
    caller matches on; what it does not handle it throws again. *)
Definition attempt {A} (p : prog A) : prog (res A) :=
  catch (bind p (fun a => Ret (Ok a))) (fun e => Ret (Raise e)).

#[global] Instance prog_mret : MRet prog := @Ret.
#[global] Instance prog_mbind : MBind prog := fun A B k p => bind p k.

(** An environment: how the collaborators answer in a world [W]. *)
Record env (W : Type) := Env {
  answer : forall X, query X -> W -> res X;
  perform : forall X, command X -> W -> res X * W
}.
Arguments answer {W} e {X} q w.
Arguments perform {W} e {X} c w.

Inductive call :=
| Asked {X : Type} (q : query X)
| Did {X : Type} (c : command X).

(** Running a computation: its result, the world it leaves and the calls
    it made, in order. *)
Record outcome (A W : Type) := Outcome {
  result : res A;
  world : W;
  calls : list call
}.
Arguments Outcome {A W} result world calls.
Arguments result {A W} o.
Arguments world {A W} o.
Arguments calls {A W} o.

Definition logged {A W} (c : call) (o : outcome A W) : outcome A W :=
  Outcome (result o) (world o) (c :: calls o).

Fixpoint run {W A} (E : env W) (p : prog A) (w : W) : outcome A W :=
  match p with
  | Ret a => Outcome (Ok a) w []
  | Throw e => Outcome (Raise e) w []
  | Ask q k => logged (Asked q) (run E (k (answer E q w)) w)
  | Do c k =>
      let (r, w') := perform E c w in
      logged (Did c) (run E (k r) w')
  end.

(** The outcome of a computation followed by another one. *)
Definition after {A B W} (o : outcome A W) (k : A -> W -> outcome B W)
  : outcome B W :=
  match result o with
  | Ok a =>
      let o' := k a (world o) in
      Outcome (result o') (world o') (calls o ++ calls o')
  | Raise e => Outcome (Raise e) (world o) (calls o)
  end.

(** The outcome of a computation whose exceptions a handler takes. *)
Definition recover {A W} (o : outcome A W) (h : exn -> W -> outcome A W)
  : outcome A W :=
  match result o with
  | Ok a => o
  | Raise e =>
      let o' := h e (world o) in
      Outcome (result o') (world o') (calls o ++ calls o')
  end.

(** A computation that only asks. *)
Fixpoint read_only {A} (p : prog A) : Prop :=
  match p with
  | Ret _ | Throw _ => True
  | Ask q k => forall r, read_only (k r)
  | Do c k => False
  end.

Definition is_mtime_call (c : call) : bool :=
  match c with
  | Asked (OsGetMTime _) => true
  | _ => false
  end.

Definition is_write (c : call) : bool :=
  match c with
  | Did _ => true
  | Asked _ => false
  end.

(** A computation all of whose calls, whatever the answers, satisfy [P]. *)
Fixpoint all_calls (P : call -> bool) {A} (p : prog A) : Prop :=
  match p with
  | Ret _ | Throw _ => True
  | Ask q k => P (Asked q) = true /\ forall r, all_calls P (k r)
  | Do c k => P (Did c) = true /\ forall r, all_calls P (k r)
  end.

(** The calls of a freshness check: path lookups, existence on a
    storage, and the file tests and modification times of the system. *)
Definition is_freshness_call (c : call) : bool :=
  match c with
  | Asked (StoragePath _ _) | Asked (StorageExists _ _)
  | Asked (OsIsFile _) | Asked (OsGetMTime _) => true
  | _ => false
  end.

End Effects.

(* ===================================================================== *)
(** ** The classes of [easy_thumbnails.files] *)
(* ===================================================================== *)

(** [get_thumbnailer] and the [tag] property play no part in the
    properties below and are left out. *)

Module Files.
Import Py Naming Effects.

(** *** [ThumbnailFile] *)

(** What the instance dictionary holds under the cache attributes. *)
Inductive attr :=
| AImage (im : image)
| ADimensions (d : Z * Z).

(** A [ThumbnailFile]: its name, the file it was given (or none: the
    stored object is opened on first use), the storage of its
    [FakeField], the [_committed] flag and the attributes that the class
    tests with [hasattr] and deletes. *)
Record ThumbnailFile := {
  tf_name : string;
  tf_file : option bytes;
  tf_storage : storage;
  tf_committed : bool;
  tf_dict : gmap string attr
}.

(** [ThumbnailFile(name, file, storage)] *)
Definition ThumbnailFile_init (name : string) (file : option bytes)
    (st : option storage) : ThumbnailFile :=
  {| tf_name := name;
     tf_file := file;
     tf_storage := default default_storage st;
     tf_committed := true;
     tf_dict := ∅ |}.

Definition with_dict (self : ThumbnailFile) (d : gmap string attr)
  : ThumbnailFile :=
  {| tf_name := tf_name self;
     tf_file := tf_file self;
     tf_storage := tf_storage self;
     tf_committed := tf_committed self;
     tf_dict := d |}.

Definition with_committed (self : ThumbnailFile) (b : bool)
  : ThumbnailFile :=
  {| tf_name := tf_name self;
     tf_file := tf_file self;
     tf_storage := tf_storage self;
     tf_committed := b;
     tf_dict := tf_dict self |}.

(** [hasattr(self, a)], [setattr] and [del self.a] on those attributes. *)
Definition hasattr (self : ThumbnailFile) (a : string) : bool :=
  bool_decide (is_Some (tf_dict self !! a)).

Definition setattr (self : ThumbnailFile) (a : string) (v : attr)
  : ThumbnailFile :=
  with_dict self (<[a := v]> (tf_dict self)).

Definition delattr (self : ThumbnailFile) (a : string)
  : res unit * ThumbnailFile :=
  match tf_dict self !! a with
  | Some _ => (Ok tt, with_dict self (delete a (tf_dict self)))
  | None => (Raise AttributeError, self)
  end.

(** [ThumbnailFile._set_image]: the outcome and the object as the call
    leaves it. [image] is [None] for a falsy argument (a PIL image is
    always truthy). *)
Definition _set_image (self : ThumbnailFile) (image : option image)
  : res unit * ThumbnailFile :=
  match image with
  | Some im =>
      let self := setattr self "_image_cache" (AImage im) in
      let self := setattr self "_dimensions_cache" (ADimensions (im_size im)) in
      (Ok tt, self)
  | None =>
      let (r, self) :=
        if hasattr self "_image_cache"
        then delattr self "_cached_image"
        else (Ok tt, self) in
      match r with
      | Raise e => (Raise e, self)
      | Ok _ =>
          if hasattr self "_dimensions_cache"
          then delattr self "_dimensions_cache"
          else (Ok tt, self)
      end
  end.

(** What a [ThumbnailFile] reads from ([_get_file]). *)
Definition tf_content (self : ThumbnailFile) : file_ref :=
  match tf_file self with
  | Some data => InMemory data
  | None => Stored (tf_storage self) (tf_name self)
  end.

(** [ThumbnailFile._get_image]: the cached value and the object as the
    call leaves it. *)
Definition _get_image (self : ThumbnailFile) : prog (attr * ThumbnailFile) :=
  self ← (if negb (hasattr self "_image_cache")
          then
            im ← ask (ImageOpen (tf_content self));
            let (r, self) := _set_image self (Some im) in
            of_res r;; Ret self
          else Ret self);
  match tf_dict self !! "_image_cache" with
  | Some a => Ret (a, self)
  | None => Throw AttributeError
  end.

(** The states a [ThumbnailFile] goes through: built by its constructor,
    then changed by assignments to [image] (which [_get_image] also
    makes) and to [_committed], and by Django's [ImageFile], which caches
    the dimensions under [_dimensions_cache] and drops them again. *)
Inductive reachable : ThumbnailFile -> Prop :=
| reach_init name file st :
    reachable (ThumbnailFile_init name file st)
| reach_set_image self image :
    reachable self -> reachable (snd (_set_image self image))
| reach_committed self b :
    reachable self -> reachable (with_committed self b)
| reach_dimensions self d :
    reachable self ->
    reachable (setattr self "_dimensions_cache" (ADimensions d))
| reach_del_dimensions self :
    reachable self -> reachable (snd (delattr self "_dimensions_cache")).

(** *** [save_thumbnail] *)

Definition save_thumbnail (thumbnail_file : ThumbnailFile) (st : storage)
  : prog string :=
  let filename := tf_name thumbnail_file in
  found ← ask (StorageExists st filename);
  (if found : bool
   then catch (do (StorageDelete st filename)) (fun _ => Ret tt)
   else Ret tt);;
  do (StorageSave st filename (tf_content thumbnail_file)).

(** *** [Thumbnailer] *)

Record Thumbnailer := {
  file : file_ref;
  name : option string;
  source_storage : storage;
  thumbnail_storage : storage;
  config : settings
}.

(** [Thumbnailer(file, name, source_storage, thumbnail_storage)] *)
Definition Thumbnailer_init (file : file_ref) (name : option string)
    (source_storage thumbnail_storage : option storage) (config : settings)
  : Thumbnailer :=
  {| file := file;
     name := name;
     source_storage := default default_storage source_storage;
     thumbnail_storage := default DEFAULT_THUMBNAIL_STORAGE thumbnail_storage;
     config := config |}.

(** [self.name] where a string is needed: [get_thumbnail_name] has
    already failed on [None]. *)
Definition self_name (self : Thumbnailer) : prog string :=
  match name self with
  | Some n => Ret n
  | None => Throw AttributeError
  end.

(** [bool(self.name)] *)
Definition name_truthy (self : Thumbnailer) : bool :=
  match name self with
  | Some n => str_truthy n
  | None => false
  end.

(** [Thumbnailer.generate_thumbnail]. [self.image] opens the source
    image; that the object keeps it for later calls is left out. *)
Definition generate_thumbnail (self : Thumbnailer) (thumbnail_options : dict)
  : prog ThumbnailFile :=
  source_image ← ask (ImageOpen (file self));
  thumbnail_image ← ask (ProcessImage source_image thumbnail_options);
  let quality :=
    default (thumbnail_quality (config self))
            (dict_get "quality" thumbnail_options) in
  data ← ask (SaveImage thumbnail_image quality);
  filename ← of_res (get_thumbnail_name (config self) (name self)
                                         thumbnail_options);
  let thumbnail := ThumbnailFile_init filename (Some data) None in
  let (r, thumbnail) := _set_image thumbnail (Some thumbnail_image) in
  of_res r;;
  Ret (with_committed thumbnail false).

(** A path that [not path] takes for missing: [None] or empty. *)
Definition no_path (p : option string) : bool :=
  match p with
  | Some s => negb (str_truthy s)
  | None => true
  end.

(** [try: st.path(n) / except NotImplementedError: None] *)
Definition path_or_None (st : storage) (n : string) : prog (option string) :=
  r ← attempt (ask (StoragePath st n));
  match r with
  | Ok p => Ret (Some p)
  | Raise e => if is_NotImplementedError e then Ret None else Throw e
  end.

(** The two paths the freshness check compares, after the four cases of
    which side has local paths: both, the source only (the thumbnail is
    then looked up on the source storage), the thumbnail only (the source
    is looked up on the thumbnail storage); with neither there is no
    pair. A lookup that answers the empty path counts as one without. *)
Definition unresolved {W} (E : env W) (w : W) (st : storage) (n : string)
  : Prop :=
  answer E (StoragePath st n) w = Raise NotImplementedError \/
  answer E (StoragePath st n) w = Ok "".

Definition resolved {W} (E : env W) (w : W) (st : storage) (n p : string)
  : Prop :=
  answer E (StoragePath st n) w = Ok p /\ p <> "".

Inductive compared_paths {W} (E : env W) (w : W) (src thumb : storage)
    (n filename : string) : string -> string -> Prop :=
| both_local sp tp :
    resolved E w src n sp ->
    resolved E w thumb filename tp ->
    compared_paths E w src thumb n filename sp tp
| source_local sp tp :
    resolved E w src n sp ->
    unresolved E w thumb filename ->
    answer E (StoragePath src filename) w = Ok tp ->
    compared_paths E w src thumb n filename sp tp
| thumbnail_local sp tp :
    unresolved E w src n ->
    resolved E w thumb filename tp ->
    answer E (StoragePath thumb n) w = Ok sp ->
    compared_paths E w src thumb n filename sp tp.

(** [Thumbnailer.thumbnail_exists] *)
Definition thumbnail_exists (self : Thumbnailer) (thumbnail_options : dict)
  : prog bool :=
  filename ← of_res (get_thumbnail_name (config self) (name self)
                                         thumbnail_options);
  self_name ← self_name self;
  source_path ← path_or_None (source_storage self) self_name;
  thumbnail_path ← path_or_None (thumbnail_storage self) filename;
  if no_path source_path && no_path thumbnail_path
  then ask (StorageExists (thumbnail_storage self) filename)
  else
    source_path ← (if no_path source_path
                   then ask (StoragePath (thumbnail_storage self) self_name)
                   else Ret (default "" source_path));
    thumbnail_path ← (if no_path thumbnail_path
                      then ask (StoragePath (source_storage self) filename)
                      else Ret (default "" thumbnail_path));
    thumbnail_is_file ← ask (OsIsFile thumbnail_path);
    if thumbnail_is_file : bool
    then
      source_is_file ← ask (OsIsFile source_path);
      if source_is_file : bool
      then
        source_mtime ← ask (OsGetMTime source_path);
        thumbnail_mtime ← ask (OsGetMTime thumbnail_path);
        Ret (source_mtime <=? thumbnail_mtime)
      else Ret true
    else Ret false.

(** [self.field_storage] and [self.save_thumbnail]: no class of the
    module sets or defines either, so the lookup fails. *)
Definition field_storage (self : Thumbnailer) : prog storage :=
  Throw AttributeError.

Definition self_save_thumbnail (self : Thumbnailer)
  : prog (ThumbnailFile -> storage -> prog string) :=
  Throw AttributeError.

(** The mirrored copy that [get_thumbnail] makes after the store when the
    two storages differ (the [try] statement of its body). *)
Definition mirror_thumbnail (self : Thumbnailer) (thumbnail_name : string)
    (thumbnail : ThumbnailFile) : prog unit :=
  r ← attempt (ask (StoragePath (thumbnail_storage self) thumbnail_name));
  match r with
  | Ok _ => Ret tt
  | Raise e =>
      if is_NotImplementedError e then
        r ← attempt (st ← field_storage self;
                     ask (StoragePath st thumbnail_name));
        match r with
        | Raise e =>
            if is_NotImplementedError e then Ret tt else Throw e
        | Ok _ =>
            save_method ← self_save_thumbnail self;
            st ← field_storage self;
            save_method thumbnail st;; Ret tt
        end
      else Throw e
  end.

(** [Thumbnailer.get_thumbnail] *)
Definition get_thumbnail (self : Thumbnailer) (thumbnail_options : dict)
    (save : bool) : prog ThumbnailFile :=
  thumbnail_name ← of_res (get_thumbnail_name (config self) (name self)
                                               thumbnail_options);
  found ← thumbnail_exists self thumbnail_options;
  if found : bool
  then Ret (ThumbnailFile_init thumbnail_name None
                               (Some (thumbnail_storage self)))
  else
    thumbnail ← generate_thumbnail self thumbnail_options;
    (if save && name_truthy self
     then
       save_thumbnail thumbnail (thumbnail_storage self);;
       if negb (storage_eqb (source_storage self) (thumbnail_storage self))
       then mirror_thumbnail self thumbnail_name thumbnail
       else Ret tt
     else Ret tt);;
    Ret thumbnail.

(** *** [ThumbnailerFieldFile] *)

(** A [ThumbnailerFieldFile]: [self.field.storage], which is also its
    source storage, and its thumbnail storage. *)
Record ThumbnailerFieldFile := {
  ff_field_storage : storage;
  ff_thumbnail_storage : storage
}.

(** [ThumbnailerFieldFile.save]; it answers with the name the object has
    after the call. *)
Definition save (self : ThumbnailerFieldFile) (new_name : string)
    (content : file_ref) : prog string :=
  stored_name ← do (FieldFileSave (ff_field_storage self) new_name content);
  (if negb (storage_eqb (ff_thumbnail_storage self) (ff_field_storage self))
   then
     r ← attempt (ask (StoragePath (ff_thumbnail_storage self) stored_name));
     match r with
     | Raise e => if is_NotImplementedError e then Ret tt else Throw e
     | Ok path =>
         present ← ask (OsExists path);
         if negb present
         then
           catch (do (OsMakeDirs (PosixPath.dirname path)))
                 (fun e => if is_OSError e then Ret tt else Throw e);;
           do (OsOpenWClose path)
         else Ret tt
     end
   else Ret tt);;
  Ret stored_name.

(** *** [ThumbnailerImageFieldFile] *)

(** A [ThumbnailerImageFieldFile]: the field file it extends, the
    [resize_source] options of its field ([None] when the field has no
    such attribute) and the settings it reads as class attributes. *)
Record ThumbnailerImageFieldFile := {
  iff_field_file : ThumbnailerFieldFile;
  iff_resize_source : option dict;
  iff_config : settings
}.

(** [bool(d)] and [k in d] for a dictionary. *)
Definition dict_truthy (d : dict) : bool :=
  match d with [] => false | _ => true end.

Definition dict_has (k : string) (d : dict) : bool :=
  match dict_get k d with Some _ => true | None => false end.

(** The options of the resize: the field's dictionary, which is given
    the default quality if it names none (the dictionary is the field's
    own, so the entry stays for later calls). *)
Definition resize_options (self : ThumbnailerImageFieldFile) (options : dict)
  : dict :=
  if negb (dict_has "quality" options)
  then dict_set "quality" (thumbnail_quality (iff_config self)) options
  else options.

Module ImageFieldFile.

(** [ThumbnailerImageFieldFile.save]. [content_name] is the [name] of
    [content], if it has one: [Thumbnailer(content)] takes it for its
    own. The [save] of the base classes is [ThumbnailerFieldFile.save]. *)
Definition save (self : ThumbnailerImageFieldFile) (new_name : string)
    (content : file_ref) (content_name : option string) : prog string :=
  match iff_resize_source self with
  | Some options =>
      if dict_truthy options
      then
        let options := resize_options self options in
        thumbnail ← generate_thumbnail
                      (Thumbnailer_init content content_name None None
                                        (iff_config self))
                      options;
        save (iff_field_file self) new_name (tf_content thumbnail)
      else save (iff_field_file self) new_name content
  | None => save (iff_field_file self) new_name content
  end.

End ImageFieldFile.

(** The calls that [get_thumbnail] may make for a thumbnail of the name
    [thumbnail_name] kept on [st]: any question, and of the writes a
    delete or a save of that name on that storage. *)
Definition writes_thumbnail (st : storage) (thumbnail_name : string)
    (c : call) : bool :=
  match c with
  | Asked _ => true
  | Did (StorageDelete s n) => storage_eqb s st && String.eqb n thumbnail_name
  | Did (StorageSave s n _) => storage_eqb s st && String.eqb n thumbnail_name
  | Did _ => false
  end.

(** Whether a call writes to a storage. *)
Definition is_storage_write (c : call) : bool :=
  match c with
  | Did (StorageDelete _ _) | Did (StorageSave _ _ _)
  | Did (FieldFileSave _ _ _) => true
  | _ => false
  end.

(** Whether a call is one to the image engine or to PIL. *)
Definition is_image_call (c : call) : bool :=
  match c with
  | Asked (ImageOpen _) | Asked (ProcessImage _ _) | Asked (SaveImage _ _) =>
      true
  | _ => false
  end.

End Files.

(* ===================================================================== *)
(** ** A small world to run the module in *)
(* ===================================================================== *)

Module Demo.
Import Py Naming Effects Files.

(** Local files with their modification time and content, directories,
    the objects held by storages that are not local, and a clock. *)
Record fs := {
  files : list (string * (Z * bytes));
  dirs : list string;
  objects : list (nat * string);
  now : Z
}.

Definition find_file (p : string) (w : fs) : option (Z * bytes) :=
  snd <$> List.find (fun f => String.eqb (fst f) p) (files w).

Definition is_file (p : string) (w : fs) : bool :=
  bool_decide (is_Some (find_file p w)).

Definition is_dir (p : string) (w : fs) : bool :=
  existsb (String.eqb p) (dirs w).

Definition has_object (id : nat) (n : string) (w : fs) : bool :=
  existsb (fun o => Nat.eqb (fst o) id && String.eqb (snd o) n) (objects w).

Definition write_file (p : string) (data : bytes) (w : fs) : fs :=
  {| files := (p, (now w, data))
                :: List.filter (fun f => negb (String.eqb (fst f) p)) (files w);
     dirs := dirs w;
     objects := objects w;
     now := now w + 1 |}.

Definition remove_file (p : string) (w : fs) : fs :=
  {| files := List.filter (fun f => negb (String.eqb (fst f) p)) (files w);
     dirs := dirs w;
     objects := objects w;
     now := now w |}.

Definition add_dir (p : string) (w : fs) : fs :=
  {| files := files w;
     dirs := p :: dirs w;
     objects := objects w;
     now := now w |}.

Definition add_object (id : nat) (n : string) (w : fs) : fs :=
  {| files := files w;
     dirs := dirs w;
     objects := (id, n) :: objects w;
     now := now w |}.

Definition remove_object (id : nat) (n : string) (w : fs) : fs :=
  {| files := files w;
     dirs := dirs w;
     objects :=
       List.filter (fun o => negb (Nat.eqb (fst o) id && String.eqb (snd o) n))
                   (objects w);
     now := now w |}.

Definition content_bytes (c : file_ref) : bytes :=
  match c with
  | InMemory data => data
  | Stored _ _ => ""
  end.

(** Storage 0 is local, under [/media/]. Storage 3 refuses every path
    lookup with an error of its own. The others have no local paths; of
    these, storage 2 cannot delete, and storage 4 fails the path lookup of
    an object it holds with an error of its own. *)
Definition local_path (n : string) : string := "/media/" ++ n.

Definition demo_answer (X : Type) (q : query X) (w : fs) : res X :=
  match q in query T return res T with
  | StoragePath (Storage 0) n => Ok (local_path n)
  | StoragePath (Storage 3) n => Raise (OtherError "SuspiciousOperation")
  | StoragePath (Storage 4) n =>
      if has_object 4 n w then Raise (OtherError "connection lost")
      else Raise NotImplementedError
  | StoragePath (Storage _) n => Raise NotImplementedError
  | StorageExists (Storage 0) n => Ok (is_file (local_path n) w)
  | StorageExists (Storage id) n => Ok (has_object id n w)
  | OsIsFile p => Ok (is_file p w)
  | OsExists p => Ok (is_file p w || is_dir p w)
  | OsGetMTime p =>
      match find_file p w with
      | Some f => Ok (fst f)
      | None => Raise OSError
      end
  | ImageOpen f => Ok (Image (640, 480) "source pixels")
  | ProcessImage im thumbnail_options => Ok (Image (100, 75) "thumbnail pixels")
  | SaveImage im quality => Ok "thumbnail bytes"
  end.

Definition store (id : nat) (n : string) (c : file_ref) (w : fs)
  : res string * fs :=
  match id with
  | O => (Ok n, write_file (local_path n) (content_bytes c) w)
  | _ => (Ok n, add_object id n w)
  end.

Definition demo_perform (X : Type) (c : command X) (w : fs) : res X * fs :=
  match c in command T return res T * fs with
  | StorageDelete (Storage 0) n => (Ok tt, remove_file (local_path n) w)
  | StorageDelete (Storage 2) n => (Raise (OtherError "read-only"), w)
  | StorageDelete (Storage id) n => (Ok tt, remove_object id n w)
  | StorageSave (Storage id) n content => store id n content w
  | OsMakeDirs p =>
      if is_dir p w then (Raise OSError, w) else (Ok tt, add_dir p w)
  | OsOpenWClose p =>
      if is_dir (PosixPath.dirname p) w
      then (Ok tt, write_file p "" w)
      else (Raise IOError, w)
  | FieldFileSave (Storage id) n content => store id n content w
  end.

Definition demo : env fs := Env fs demo_answer demo_perform.

(** The same world with storages that are full: every save fails. *)
Definition full_perform (X : Type) (c : command X) (w : fs) : res X * fs :=
  match c in command T return res T * fs with
  | StorageSave s n content => (Raise (OtherError "disk full"), w)
  | FieldFileSave s n content => (Raise (OtherError "disk full"), w)
  | c => demo_perform _ c w
  end.

Definition full : env fs := Env fs demo_answer full_perform.

(** The same world where no image can be decoded. *)
Definition unreadable_answer (X : Type) (q : query X) (w : fs) : res X :=
  match q in query T return res T with
  | ImageOpen f => Raise IOError
  | q => demo_answer _ q w
  end.

Definition unreadable : env fs := Env fs unreadable_answer demo_perform.

Definition empty_fs : fs :=
  {| files := []; dirs := []; objects := []; now := 100 |}.

Definition cat_options : dict :=
  dict_set "quality" (PInt 80) (dict_set "size" (PTuple [100; 75]) []).

Definition crop_options : dict :=
  dict_set "crop" (PBool true)
    (dict_set "quality" (PInt 80) (dict_set "size" (PTuple [50; 50]) [])).

(** The same options, entered in another order. *)
Definition crop_options_reordered : dict :=
  dict_set "size" (PTuple [50; 50])
    (dict_set "quality" (PInt 80) (dict_set "crop" (PBool true) [])).

(** A world where the source and its thumbnail are local files, the
    thumbnail the newer one. *)
Definition fresh_fs : fs :=
  {| files := [("/media/photos/cat.jpg", (5, "cat"));
               ("/media/photos/cat.jpg.100x75_q80.jpg",
                (7, "thumbnail bytes"))];
     dirs := ["/media/photos"];
     objects := [];
     now := 100 |}.

(** The thumbnail that [generate_thumbnail] makes in this world. *)
Definition generated (thumbnail_name : string) : ThumbnailFile :=
  let thumbnail :=
    ThumbnailFile_init thumbnail_name (Some "thumbnail bytes") None in
  let thumbnail :=
    setattr thumbnail "_image_cache"
            (AImage (Image (100, 75) "thumbnail pixels")) in
  let thumbnail :=
    setattr thumbnail "_dimensions_cache" (ADimensions (100, 75)) in
  with_committed thumbnail false.

(** A thumbnailer of [photos/cat.jpg] between two storages. *)
Definition cat (src thumb : nat) (n : option string) : Thumbnailer :=
  {| file := InMemory "cat";
     name := n;
     source_storage := Storage src;
     thumbnail_storage := Storage thumb;
     config := default_settings |}.

End Demo.

Import Py Naming Effects Files.

(* ===================================================================== *)
(** ** Running computations *)
(* ===================================================================== *)

Section Run.
Context {W : Type} (E : env W).

Lemma outcome_eta {A} (o : outcome A W) :
  Outcome (result o) (world o) (calls o) = o.
Proof. by destruct o. Qed.

Lemma after_logged {A B} c (o : outcome A W) (k : A -> W -> outcome B W) :
  after (logged c o) k = logged c (after o k).
Proof. by destruct o as [[a|e] w l]. Qed.

Lemma recover_logged {A} c (o : outcome A W) h :
  recover (logged c o) h = logged c (recover o h).
Proof. by destruct o as [[a|e] w l]. Qed.

Lemma run_bind {A B} (p : prog A) (f : A -> prog B) w :
  run E (p ≫= f) w = after (run E p w) (fun a w' => run E (f a) w').
Proof.
  unfold mbind, prog_mbind. revert w.
  induction p as [a|e|X q k IH|X c k IH]; intros w; simpl.
  - unfold after; simpl. by rewrite outcome_eta.
  - done.
  - by rewrite IH, after_logged.
  - destruct (perform E c w) as [r w']. by rewrite IH, after_logged.
Qed.

Lemma run_catch {A} (p : prog A) h w :
  run E (catch p h) w = recover (run E p w) (fun e w' => run E (h e) w').
Proof.
  revert w. induction p as [a|e|X q k IH|X c k IH]; intros w; simpl.
  - done.
  - unfold recover; simpl. by rewrite outcome_eta.
  - by rewrite IH, recover_logged.
  - destruct (perform E c w) as [r w']. by rewrite IH, recover_logged.
Qed.

Lemma run_of_res {A} (r : res A) w : run E (of_res r) w = Outcome r w [].
Proof. by destruct r. Qed.

Lemma run_ask {X} (q : query X) w :
  run E (ask q) w = Outcome (answer E q w) w [Asked q].
Proof. unfold ask; simpl. by rewrite run_of_res. Qed.

Lemma run_do {X} (c : command X) w :
  run E (do c) w =
  Outcome (perform E c w).1 (perform E c w).2 [Did c].
Proof.
  unfold do; simpl. destruct (perform E c w) as [r w'].
  by rewrite run_of_res.
Qed.

Lemma run_attempt {A} (p : prog A) w :
  run E (attempt p) w =
  Outcome (Ok (result (run E p w))) (world (run E p w)) (calls (run E p w)).
Proof.
  unfold attempt. rewrite run_catch.
  change (bind p (fun a => Ret (Ok a))) with (p ≫= (fun a => Ret (Ok a))).
  rewrite run_bind. unfold recover, after.
  destruct (run E p w) as [[a|e] w' l]; simpl; by rewrite ?app_nil_r.
Qed.

End Run.

Ltac run_simpl :=
  unfold mbind, prog_mbind, mret, prog_mret, ask, do, attempt, logged;
  simpl.

(* ===================================================================== *)
(** ** The order of strings and the sort of the options *)
(* ===================================================================== *)

Lemma string_leb_trans (s1 s2 s3 : string) :
  String.leb s1 s2 = true -> String.leb s2 s3 = true ->
  String.leb s1 s3 = true.
Proof.
  unfold String.leb. revert s2 s3.
  induction s1 as [|a s1 IH]; intros [|b s2] [|c s3]; simpl; try done.
  unfold Ascii.compare.
  destruct (N.compare_spec (N_of_ascii a) (N_of_ascii b)) as [Hab|Hab|Hab],
           (N.compare_spec (N_of_ascii b) (N_of_ascii c)) as [Hbc|Hbc|Hbc],
           (N.compare_spec (N_of_ascii a) (N_of_ascii c)) as [Hac|Hac|Hac];
    try done; try lia.
  apply IH.
Qed.

Lemma string_leb_ne_ltb (s1 s2 : string) :
  String.leb s1 s2 = true -> s1 <> s2 -> String.ltb s1 s2 = true.
Proof.
  unfold String.leb, String.ltb. intros Hle Hne.
  destruct (String.compare s1 s2) eqn:Hc; try done.
  by apply String.compare_eq_iff in Hc.
Qed.

Lemma item_le_total a b : item_le a b = false -> item_le b a = true.
Proof.
  unfold item_le. intros H.
  destruct (String.leb_total (fst a) (fst b)); congruence.
Qed.

Lemma item_le_antisym a b :
  item_le a b = true -> item_le b a = true -> fst a = fst b.
Proof. apply String.leb_antisym. Qed.

Lemma item_le_trans a b c :
  item_le a b = true -> item_le b c = true -> item_le a c = true.
Proof. apply string_leb_trans. Qed.

Lemma insert_item_comm a b l :
  fst a <> fst b ->
  insert_item a (insert_item b l) = insert_item b (insert_item a l).
Proof.
  intros Hne. induction l as [|x l IH]; simpl.
  - destruct (item_le a b) eqn:Hab, (item_le b a) eqn:Hba; try done.
    + by destruct Hne; apply item_le_antisym.
    + apply item_le_total in Hab. congruence.
  - destruct (item_le b x) eqn:Hbx, (item_le a x) eqn:Hax; simpl;
      rewrite ?Hbx, ?Hax;
      destruct (item_le a b) eqn:Hab, (item_le b a) eqn:Hba;
      try done; try (by destruct Hne; apply item_le_antisym);
      try (apply item_le_total in Hab; congruence);
      try (by rewrite IH).
    + pose proof (item_le_trans _ _ _ Hab Hbx). congruence.
    + pose proof (item_le_trans _ _ _ Hba Hax). congruence.
Qed.

Lemma sort_items_perm l1 l2 :
  Permutation l1 l2 -> NoDup (keys l1) -> sort_items l1 = sort_items l2.
Proof.
  induction 1 as [|x l l' _ IH|x y l|l l' l'' H1 IH1 H2 IH2]; simpl.
  - done.
  - intros Hnd. apply NoDup_cons in Hnd as [_ Hnd]. by rewrite IH.
  - intros Hnd. apply NoDup_cons in Hnd as [Hnotin _].
    apply insert_item_comm. intros Heq. apply Hnotin. rewrite Heq. left.
  - intros Hnd. rewrite IH1 by done. apply IH2.
    unfold keys in *. by rewrite <- H1.
Qed.

Lemma insert_item_perm a l : Permutation (insert_item a l) (a :: l).
Proof.
  induction l as [|b l IH]; simpl; [done|].
  destruct (item_le a b); [done|].
  rewrite IH. apply perm_swap.
Qed.

Lemma sort_items_permutation l : Permutation (sort_items l) l.
Proof.
  induction l as [|a l IH]; simpl; [done|].
  rewrite insert_item_perm. by apply perm_skip.
Qed.

Lemma insert_item_sorted a l :
  StronglySorted (fun x y => item_le x y = true) l ->
  StronglySorted (fun x y => item_le x y = true) (insert_item a l).
Proof.
  induction 1 as [|b l Hl IH Hb]; simpl.
  - by repeat constructor.
  - destruct (item_le a b) eqn:Hab.
    + constructor; [by constructor|].
      constructor; [done|].
      eapply Forall_impl; [exact Hb|].
      intros c Hbc. by eapply item_le_trans.
    + constructor; [done|].
      eapply Permutation_Forall; [symmetry; apply insert_item_perm|].
      constructor; [by apply item_le_total|done].
Qed.

Lemma sort_items_sorted l :
  StronglySorted (fun x y => item_le x y = true) (sort_items l).
Proof.
  induction l as [|a l IH]; simpl; [constructor|by apply insert_item_sorted].
Qed.

(* ===================================================================== *)
(** ** Dictionaries *)
(* ===================================================================== *)

Lemma wf_dict_nil : wf_dict [].
Proof. apply NoDup_nil_2. Qed.

Lemma wf_dict_cons k v d :
  wf_dict ((k, v) :: d) <-> (k ∉ keys d) /\ wf_dict d.
Proof. unfold wf_dict; simpl. apply NoDup_cons. Qed.

Lemma elem_of_keys k v (d : dict) : (k, v) ∈ d -> k ∈ keys d.
Proof. intros H. by apply (list_elem_of_fmap_2 fst) in H. Qed.

Lemma dict_get_None k d : k ∉ keys d -> dict_get k d = None.
Proof.
  induction d as [|[k' v'] d IH]; simpl; [done|].
  intros Hk. apply not_elem_of_cons in Hk as [Hne Hk].
  destruct (String.eqb_spec k' k); [congruence|by apply IH].
Qed.

Lemma elem_of_dict_get d k v :
  wf_dict d -> (k, v) ∈ d <-> dict_get k d = Some v.
Proof.
  induction d as [|[k' v'] d IH]; simpl.
  - intros _. split; [by intros ?%elem_of_nil|done].
  - intros [Hk' Hd]%wf_dict_cons. rewrite elem_of_cons, IH by done.
    destruct (String.eqb_spec k' k) as [->|Hne].
    + split; [intros [[= ->]|Hget]|intros [= ->]; by left]; [done|].
      by rewrite dict_get_None in Hget.
    + split; [intros [[= -> ->]|Hget]|intros Hget; by right]; done.
Qed.

Lemma keys_dict_remove k d x : x ∈ keys (dict_remove k d) -> x ∈ keys d.
Proof.
  induction d as [|[k' v'] d IH]; simpl; [done|].
  destruct (String.eqb k' k); simpl.
  - by right.
  - rewrite !elem_of_cons. intros [->|H]; [by left|right; by apply IH].
Qed.

Lemma wf_dict_remove k d : wf_dict d -> wf_dict (dict_remove k d).
Proof.
  induction d as [|[k' v'] d IH]; simpl; [done|].
  intros [Hk' Hd]%wf_dict_cons.
  destruct (String.eqb k' k); [done|].
  apply wf_dict_cons. split; [|by apply IH].
  intros H. by apply Hk', (keys_dict_remove k).
Qed.

Lemma keys_dict_set k v d x : x ∈ keys (dict_set k v d) -> x = k \/ x ∈ keys d.
Proof.
  induction d as [|[k' v'] d IH]; simpl.
  - intros ?%list_elem_of_singleton. by left.
  - destruct (String.eqb_spec k' k) as [Hk|Hk]; simpl; rewrite !elem_of_cons.
    + intros [->|H]; [by left|by right; right].
    + intros [->|H]; [by right; left|].
      destruct (IH H); [by left|by right; right].
Qed.

(** Assignments keep the keys of a dictionary distinct. *)
Lemma wf_dict_set k v d : wf_dict d -> wf_dict (dict_set k v d).
Proof.
  induction d as [|[k' v'] d IH]; simpl.
  - intros _. apply wf_dict_cons. split; [apply not_elem_of_nil|].
    apply wf_dict_nil.
  - intros [Hk' Hd]%wf_dict_cons.
    destruct (String.eqb_spec k' k) as [Hk|Hk]; apply wf_dict_cons.
    + split; [congruence|done].
    + split; [|by apply IH].
      intros [?|?]%keys_dict_set; congruence.
Qed.

Lemma dict_get_remove k d x :
  wf_dict d ->
  dict_get x (dict_remove k d) =
  if String.eqb x k then None else dict_get x d.
Proof.
  induction d as [|[k' v'] d IH]; simpl.
  - by destruct (String.eqb x k).
  - intros [Hk' Hd]%wf_dict_cons.
    destruct (String.eqb_spec k' k) as [Hk|Hk]; simpl.
    + destruct (String.eqb_spec x k) as [Hx|Hx].
      * apply dict_get_None. congruence.
      * by destruct (String.eqb_spec k' x); [congruence|].
    + rewrite IH by done.
      destruct (String.eqb_spec k' x) as [Hx|Hx]; [|done].
      by destruct (String.eqb_spec x k); [congruence|].
Qed.

(** Two dictionaries hold the same pairs. *)
Lemma same_pairs_perm (A B : dict) :
  wf_dict A -> wf_dict B ->
  (forall k, dict_get k A = dict_get k B) -> Permutation A B.
Proof.
  intros HA HB Hsame.
  apply NoDup_Permutation.
  - by apply (NoDup_fmap_1 fst).
  - by apply (NoDup_fmap_1 fst).
  - intros [k v]. by rewrite !elem_of_dict_get, Hsame.
Qed.

Lemma same_pairs_remove (A B : dict) k :
  wf_dict A -> wf_dict B ->
  (forall x, dict_get x A = dict_get x B) ->
  forall x, dict_get x (dict_remove k A) = dict_get x (dict_remove k B).
Proof. intros HA HB Hsame x. by rewrite !dict_get_remove, Hsame. Qed.

Lemma sort_items_same_pairs (A B : dict) :
  wf_dict A -> wf_dict B ->
  (forall k, dict_get k A = dict_get k B) -> sort_items A = sort_items B.
Proof.
  intros HA HB Hsame. apply sort_items_perm; [|done].
  by apply same_pairs_perm.
Qed.

(* ===================================================================== *)
(** ** [Thumbnailer.get_thumbnail_name]: the option string *)
(* ===================================================================== *)

Lemma all_opts_of_same_pairs cfg (A B : dict) :
  wf_dict A -> wf_dict B ->
  (forall k, dict_get k A = dict_get k B) ->
  all_opts_of cfg A = all_opts_of cfg B.
Proof.
  intros HA HB Hsame. unfold all_opts_of, dict_pop, dict_pop_default.
  rewrite (Hsame "size").
  destruct (dict_get "size" B) as [size_value|]; simpl; [|done].
  destruct (tuple_strs size_value) as [size|]; simpl; [|done].
  rewrite (same_pairs_remove A B "size") by done.
  destruct (dict_get "quality" (dict_remove "size" B)) as [quality|].
  - rewrite (sort_items_same_pairs
               (dict_remove "quality" (dict_remove "size" A))
               (dict_remove "quality" (dict_remove "size" B))); [done|..].
    + by repeat apply wf_dict_remove.
    + by repeat apply wf_dict_remove.
    + by repeat apply same_pairs_remove; try apply wf_dict_remove.
  - rewrite (sort_items_same_pairs (dict_remove "size" A)
                                   (dict_remove "size" B)); [done|..].
    + by apply wf_dict_remove.
    + by apply wf_dict_remove.
    + by apply same_pairs_remove.
Qed.

(** C1. Two option dictionaries that hold the same key-value pairs, in
    whatever order, give the same thumbnail name (or the same error),
    for every source name and all settings. *)
Theorem get_thumbnail_name_order_independent
    (cfg : settings) (source_name : option string) (A B : dict) :
  wf_dict A -> wf_dict B ->
  (forall k, dict_get k A = dict_get k B) ->
  get_thumbnail_name cfg source_name A = get_thumbnail_name cfg source_name B.
Proof.
  intros HA HB Hsame. unfold get_thumbnail_name.
  by rewrite (all_opts_of_same_pairs cfg A B).
Qed.

(** The options of the crop scenario, entered in two orders. *)
Lemma get_thumbnail_name_order_independent_witness :
  get_thumbnail_name default_settings (Some "photos/cat.jpg")
                     Demo.crop_options
  = get_thumbnail_name default_settings (Some "photos/cat.jpg")
                       Demo.crop_options_reordered.
Proof.
  apply (get_thumbnail_name_order_independent
           default_settings (Some "photos/cat.jpg")
           Demo.crop_options Demo.crop_options_reordered).
  - repeat apply wf_dict_set. apply wf_dict_nil.
  - repeat apply wf_dict_set. apply wf_dict_nil.
  - intros k.
    change Demo.crop_options with
      [("size", PTuple [50; 50]); ("quality", PInt 80); ("crop", PBool true)].
    change Demo.crop_options_reordered with
      [("crop", PBool true); ("quality", PInt 80); ("size", PTuple [50; 50])].
    cbn [dict_get].
    destruct (String.eqb_spec "size" k), (String.eqb_spec "quality" k),
             (String.eqb_spec "crop" k); by simplify_eq.
Defined.

Lemma append_dash_truthy (k t : string) : str_truthy (k ++ "-" ++ t) = true.
Proof. by destruct k. Qed.

(** The [and]/[or] idiom of the source computes the token of the
    specification. *)
Lemma render_option_token kv : render_option kv = option_token kv.
Proof.
  destruct kv as [k v]. unfold render_option, option_token, and_or; simpl.
  destruct (is_True v); simpl; [done|].
  by rewrite append_dash_truthy.
Qed.

Lemma StronglySorted_filter {A} (R : A -> A -> Prop) (P : A -> Prop)
    `{!forall x, Decision (P x)} (l : list A) :
  StronglySorted R l -> StronglySorted R (filter P l).
Proof.
  induction 1 as [|x l Hl IH Hx]; [constructor|].
  rewrite filter_cons. destruct (decide (P x)); [|done].
  constructor; [done|].
  apply Forall_forall. intros y [_ Hy]%list_elem_of_filter.
  by eapply Forall_forall in Hx.
Qed.

Lemma sorted_keys_strict (l : list (string * pyval)) :
  NoDup (keys l) ->
  StronglySorted (fun x y => item_le x y = true) l ->
  StronglySorted key_lt l.
Proof.
  intros Hnd. induction 1 as [|x l Hl IH Hx]; [constructor|].
  apply (wf_dict_cons x.1 x.2 l) in Hnd as [Hnotin Hnd].
  constructor; [by apply IH|].
  apply Forall_forall. intros y Hy.
  apply string_leb_ne_ltb.
  - by eapply Forall_forall in Hx.
  - intros Heq. apply Hnotin. rewrite Heq.
    by apply (list_elem_of_fmap_2 fst).
Qed.

(** What the comprehension keeps of a dictionary, and in which order. *)
Lemma emitted_options (d : dict) :
  wf_dict d ->
  let emitted := filter (fun kv => truthy (snd kv)) (sort_items d) in
  (forall k v, (k, v) ∈ emitted <-> dict_get k d = Some v /\ truthy v = true)
  /\ StronglySorted key_lt emitted.
Proof.
  intros Hwf emitted. split.
  - intros k v. subst emitted.
    rewrite list_elem_of_filter, sort_items_permutation,
      elem_of_dict_get by done; simpl.
    rewrite Is_true_true. tauto.
  - apply StronglySorted_filter, sorted_keys_strict.
    + unfold keys. by rewrite sort_items_permutation.
    + apply sort_items_sorted.
Qed.

(** C5, as stated: the name of the example does not end in the option
    string; the extension follows it. *)
Lemma crop_thumbnail_name_ends_in_extension :
  get_thumbnail_name default_settings (Some "photos/cat.jpg")
                     Demo.crop_options
    = Ok "photos/cat.jpg.50x50_q80_crop.jpg" /\
  endswith "photos/cat.jpg.50x50_q80_crop.jpg" "50x50_q80_crop" = false.
Proof. by vm_compute. Qed.

(** C5, as amended. Whenever [get_thumbnail_name] returns, the option
    string it builds is a size token, a quality token and one token per
    emitted option, joined by underscores, where
    - the emitted options are exactly the pairs of the dictionary whose
      key is neither [size] nor [quality] and whose value is truthy,
    - they come in increasing order of their keys,
    - the token of an option is its key alone if the value is [True],
      and otherwise the key, a dash and the value.
    For [{size: (50, 50), quality: 80, crop: True}] on [photos/cat.jpg]
    (empty templates and prefix) the name is
    [photos/cat.jpg.50x50_q80_crop.jpg]: the option string
    [50x50_q80_crop] followed by the extension. *)
Theorem option_tokens_rule :
  (forall (cfg : settings) (source_name : option string) (d : dict)
          (n : string),
     wf_dict d ->
     get_thumbnail_name cfg source_name d = Ok n ->
     exists (all_opts size_token quality_token : string)
            (emitted : list (string * pyval)),
       all_opts_of cfg d = Ok all_opts /\
       all_opts =
         Py.join "_" (size_token :: quality_token :: map option_token emitted)
       /\
       (forall k v,
          (k, v) ∈ emitted <->
          dict_get k d = Some v /\ k <> "size" /\ k <> "quality" /\
          truthy v = true) /\
       StronglySorted key_lt emitted) /\
  get_thumbnail_name default_settings (Some "photos/cat.jpg")
                     Demo.crop_options
    = Ok "photos/cat.jpg.50x50_q80_crop.jpg".
Proof.
  split; [|by vm_compute].
  intros cfg source_name d n Hwf Hname.
  unfold get_thumbnail_name in Hname.
  destruct source_name as [source_name|]; [|done].
  destruct (PosixPath.split source_name) as [path source_filename].
  destruct (all_opts_of cfg d) as [all_opts|] eqn:Hopts; [|done].
  clear Hname. exists all_opts.
  unfold all_opts_of, dict_pop, dict_pop_default in Hopts.
  destruct (dict_get "size" d) as [size_value|] eqn:Hsize; [|done].
  simpl in Hopts.
  destruct (tuple_strs size_value) as [size|]; [|done]. simpl in Hopts.
  pose proof (wf_dict_remove "size" d Hwf) as Hwf1.
  destruct (dict_get "quality" (dict_remove "size" d)) as [quality|]
    eqn:Hquality;
    (destruct (format_size size) as [size_token|]; [|done]);
    simpl in Hopts;
    (destruct (format_quality _) as [quality_token|]; [|done]);
    injection Hopts as <-;
    exists size_token, quality_token.
  - pose proof (wf_dict_remove "quality" _ Hwf1) as Hwf2.
    destruct (emitted_options _ Hwf2) as [Hin Hsorted].
    eexists. split; [done|]. split; [|split; [|exact Hsorted]].
    + unfold render_options.
      by rewrite (map_ext render_option option_token render_option_token).
    + intros k v. rewrite Hin, !dict_get_remove by done.
      destruct (String.eqb_spec k "quality"), (String.eqb_spec k "size");
        intuition congruence.
  - destruct (emitted_options _ Hwf1) as [Hin Hsorted].
    eexists. split; [done|]. split; [|split; [|exact Hsorted]].
    + unfold render_options.
      by rewrite (map_ext render_option option_token render_option_token).
    + intros k v. rewrite Hin.
      rewrite dict_get_remove in Hquality |- * by done.
      destruct (String.eqb_spec k "size"); [intuition congruence|].
      split; [|intuition congruence].
      intros [Hget Htruthy]. repeat split; try done.
      intros ->. simpl in Hquality. congruence.
Qed.

(** The rule on the options of the crop scenario. *)
Lemma option_tokens_rule_witness :
  exists (all_opts size_token quality_token : string)
         (emitted : list (string * pyval)),
    all_opts_of default_settings Demo.crop_options = Ok all_opts /\
    all_opts =
      Py.join "_" (size_token :: quality_token :: map option_token emitted) /\
    (forall k v,
       (k, v) ∈ emitted <->
       dict_get k Demo.crop_options = Some v /\ k <> "size" /\
       k <> "quality" /\ truthy v = true) /\
    StronglySorted key_lt emitted.
Proof.
  apply (proj1 option_tokens_rule default_settings (Some "photos/cat.jpg")
               Demo.crop_options "photos/cat.jpg.50x50_q80_crop.jpg").
  - repeat apply wf_dict_set. apply wf_dict_nil.
  - reflexivity.
Defined.

(* ===================================================================== *)
(** ** [Thumbnailer.get_thumbnail_name]: the scenarios *)
(* ===================================================================== *)

(** C6, as stated: the name is not [photos/100x75_q80.jpg]. *)
Lemma cat_thumbnail_name_is_not_bare :
  get_thumbnail_name default_settings (Some "photos/cat.jpg") Demo.cat_options
  <> Ok "photos/100x75_q80.jpg".
Proof. vm_compute. discriminate. Qed.

(** C6, as amended. With empty directory templates and prefix, and the
    extension left to the source (or forced to [jpg]), the thumbnail of
    [photos/cat.jpg] for [{size: (100, 75), quality: 80}] is named
    [photos/cat.jpg.100x75_q80.jpg]: the source file name, the option
    string and the extension, joined by dots. The extension is appended
    although it is the source's own. *)
Theorem cat_thumbnail_name (cfg : settings) :
  thumbnail_basedir cfg = "" ->
  thumbnail_subdir cfg = "" ->
  thumbnail_prefix cfg = "" ->
  thumbnail_extension cfg = "" \/ thumbnail_extension cfg = "jpg" ->
  get_thumbnail_name cfg (Some "photos/cat.jpg") Demo.cat_options
  = Ok "photos/cat.jpg.100x75_q80.jpg".
Proof.
  destruct cfg as [basedir subdir prefix quality extension]; simpl.
  intros -> -> -> [-> | ->]; reflexivity.
Qed.

(** The scenario under the default settings. *)
Lemma cat_thumbnail_name_witness :
  get_thumbnail_name default_settings (Some "photos/cat.jpg") Demo.cat_options
  = Ok "photos/cat.jpg.100x75_q80.jpg".
Proof.
  apply (cat_thumbnail_name default_settings);
    [reflexivity | reflexivity | reflexivity | left; reflexivity].
Defined.

(* ===================================================================== *)
(** ** [save_thumbnail] *)
(* ===================================================================== *)

(** C7. When an object already exists under the thumbnail's name and the
    storage's [delete] raises, whatever the exception, [save_thumbnail]
    does not pass it on: it goes on to [save] under that name, in the
    world the failed delete left, and returns what [save] returns. *)
Theorem save_thumbnail_delete_failure_swallowed
    {W} (E : env W) (w w' : W) (thumbnail_file : ThumbnailFile)
    (st : storage) (e : exn) :
  answer E (StorageExists st (tf_name thumbnail_file)) w = Ok true ->
  perform E (StorageDelete st (tf_name thumbnail_file)) w = (Raise e, w') ->
  run E (save_thumbnail thumbnail_file st) w =
  let saving :=
    StorageSave st (tf_name thumbnail_file) (tf_content thumbnail_file) in
  Outcome (perform E saving w').1 (perform E saving w').2
          [Asked (StorageExists st (tf_name thumbnail_file));
           Did (StorageDelete st (tf_name thumbnail_file));
           Did saving].
Proof.
  intros Hexists Hdelete. unfold save_thumbnail. run_simpl.
  rewrite Hexists; simpl. rewrite Hdelete; simpl.
  destruct (perform E _ w') as [r w'']; simpl.
  by rewrite run_of_res.
Qed.

(** A storage that holds the thumbnail and cannot delete it. *)
Lemma save_thumbnail_delete_failure_swallowed_witness :
  run Demo.demo
      (save_thumbnail (Demo.generated "photos/cat.jpg.100x75_q80.jpg")
                      (Storage 2))
      (Demo.add_object 2 "photos/cat.jpg.100x75_q80.jpg" Demo.empty_fs)
  = Outcome
      (Ok "photos/cat.jpg.100x75_q80.jpg")
      (Demo.add_object 2 "photos/cat.jpg.100x75_q80.jpg"
         (Demo.add_object 2 "photos/cat.jpg.100x75_q80.jpg" Demo.empty_fs))
      [Asked (StorageExists (Storage 2) "photos/cat.jpg.100x75_q80.jpg");
       Did (StorageDelete (Storage 2) "photos/cat.jpg.100x75_q80.jpg");
       Did (StorageSave (Storage 2) "photos/cat.jpg.100x75_q80.jpg"
                        (InMemory "thumbnail bytes"))].
Proof.
  apply (save_thumbnail_delete_failure_swallowed
           Demo.demo
           (Demo.add_object 2 "photos/cat.jpg.100x75_q80.jpg" Demo.empty_fs)
           (Demo.add_object 2 "photos/cat.jpg.100x75_q80.jpg" Demo.empty_fs)
           (Demo.generated "photos/cat.jpg.100x75_q80.jpg")
           (Storage 2) (OtherError "read-only"));
    reflexivity.
Defined.

(* ===================================================================== *)
(** ** [Thumbnailer.thumbnail_exists] *)
(* ===================================================================== *)

Section Freshness.
Context {W : Type} (E : env W) (w : W).
Context (self : Thumbnailer) (thumbnail_options : dict).
Context (n filename : string).

Ltac lookups :=
  repeat match goal with
  | H : answer E ?q w = _ |- context [answer E ?q w] => rewrite H; simpl
  | |- context [str_truthy _] => unfold str_truthy
  | H : ?p <> "" |- context [String.eqb ?p ""] =>
      rewrite (proj2 (String.eqb_neq p "") H); simpl
  end.

(** C3. When neither storage has local paths (both lookups raise
    [NotImplementedError]), [thumbnail_exists] answers what the thumbnail
    storage's [exists] answers for the thumbnail name; it makes the two
    lookups and that call and no other, so no modification time is read. *)
Theorem thumbnail_exists_remote_only :
  name self = Some n ->
  get_thumbnail_name (config self) (name self) thumbnail_options
    = Ok filename ->
  answer E (StoragePath (source_storage self) n) w
    = Raise NotImplementedError ->
  answer E (StoragePath (thumbnail_storage self) filename) w
    = Raise NotImplementedError ->
  run E (thumbnail_exists self thumbnail_options) w =
    Outcome (answer E (StorageExists (thumbnail_storage self) filename) w) w
            [Asked (StoragePath (source_storage self) n);
             Asked (StoragePath (thumbnail_storage self) filename);
             Asked (StorageExists (thumbnail_storage self) filename)]
  /\ existsb is_mtime_call
       (calls (run E (thumbnail_exists self thumbnail_options) w)) = false.
Proof.
  intros Hname Hfilename Hsource Hthumbnail.
  assert (run E (thumbnail_exists self thumbnail_options) w =
    Outcome (answer E (StorageExists (thumbnail_storage self) filename) w) w
            [Asked (StoragePath (source_storage self) n);
             Asked (StoragePath (thumbnail_storage self) filename);
             Asked (StorageExists (thumbnail_storage self) filename)]) as ->.
  { unfold thumbnail_exists, self_name, path_or_None.
    rewrite Hfilename, Hname. run_simpl. lookups.
    by rewrite run_of_res. }
  done.
Qed.

(** C2. When the freshness check has a pair of local paths to compare
    ([sp] for the source, [tp] for the thumbnail), [thumbnail_exists]
    answers [False] if [tp] is not a file, [True] if [tp] is a file and
    [sp] is not, and otherwise whether the modification time of [sp] is at
    most that of [tp]. *)
Theorem thumbnail_exists_local (sp tp : string) :
  name self = Some n ->
  get_thumbnail_name (config self) (name self) thumbnail_options
    = Ok filename ->
  compared_paths E w (source_storage self) (thumbnail_storage self)
                 n filename sp tp ->
  let verdict := result (run E (thumbnail_exists self thumbnail_options) w) in
  (answer E (OsIsFile tp) w = Ok false -> verdict = Ok false) /\
  (answer E (OsIsFile tp) w = Ok true ->
   answer E (OsIsFile sp) w = Ok false -> verdict = Ok true) /\
  (forall source_mtime thumbnail_mtime : Z,
   answer E (OsIsFile tp) w = Ok true ->
   answer E (OsIsFile sp) w = Ok true ->
   answer E (OsGetMTime sp) w = Ok source_mtime ->
   answer E (OsGetMTime tp) w = Ok thumbnail_mtime ->
   verdict = Ok (source_mtime <=? thumbnail_mtime)).
Proof.
  intros Hname Hfilename Hpaths verdict. subst verdict.
  unfold thumbnail_exists, self_name, path_or_None.
  rewrite Hfilename, Hname.
  destruct Hpaths as
    [sp tp [Hs Hsp] [Ht Htp]
    |sp tp [Hs Hsp] [Ht|Ht] Hfallback
    |sp tp [Hs|Hs] [Ht Htp] Hfallback];
    (split; [|split]); intros; run_simpl; lookups; done.
Qed.

End Freshness.

(** Two storages without local paths; the thumbnail storage holds the
    thumbnail. *)
Lemma thumbnail_exists_remote_only_witness :
  run Demo.demo
      (thumbnail_exists (Demo.cat 5 1 (Some "photos/cat.jpg"))
                        Demo.cat_options)
      (Demo.add_object 1 "photos/cat.jpg.100x75_q80.jpg" Demo.empty_fs)
  = Outcome (Ok true)
      (Demo.add_object 1 "photos/cat.jpg.100x75_q80.jpg" Demo.empty_fs)
      [Asked (StoragePath (Storage 5) "photos/cat.jpg");
       Asked (StoragePath (Storage 1) "photos/cat.jpg.100x75_q80.jpg");
       Asked (StorageExists (Storage 1) "photos/cat.jpg.100x75_q80.jpg")].
Proof.
  destruct (thumbnail_exists_remote_only
              Demo.demo
              (Demo.add_object 1 "photos/cat.jpg.100x75_q80.jpg" Demo.empty_fs)
              (Demo.cat 5 1 (Some "photos/cat.jpg")) Demo.cat_options
              "photos/cat.jpg" "photos/cat.jpg.100x75_q80.jpg")
    as [Hrun _]; [reflexivity..|].
  exact Hrun.
Defined.

(** One local storage; the thumbnail file is newer than the source. *)
Lemma thumbnail_exists_local_witness :
  result (run Demo.demo
              (thumbnail_exists (Demo.cat 0 0 (Some "photos/cat.jpg"))
                                Demo.cat_options)
              Demo.fresh_fs)
  = Ok (5 <=? 7).
Proof.
  destruct (thumbnail_exists_local
              Demo.demo Demo.fresh_fs (Demo.cat 0 0 (Some "photos/cat.jpg"))
              Demo.cat_options "photos/cat.jpg" "photos/cat.jpg.100x75_q80.jpg"
              "/media/photos/cat.jpg" "/media/photos/cat.jpg.100x75_q80.jpg")
    as (_ & _ & Hmtime).
  - reflexivity.
  - reflexivity.
  - apply both_local; (split; [reflexivity|discriminate]).
  - apply Hmtime; reflexivity.
Defined.

(* ===================================================================== *)
(** ** Computations that only ask *)
(* ===================================================================== *)

Section ReadOnly.
Context {W : Type} (E : env W).

Lemma read_only_run {A} (p : prog A) w :
  read_only p ->
  world (run E p w) = w /\ existsb is_write (calls (run E p w)) = false.
Proof.
  induction p as [a|e|X q k IH|X c k IH]; simpl; intros Hp; try done.
  apply IH, Hp.
Qed.

Lemma read_only_bind {A B} (p : prog A) (f : A -> prog B) :
  read_only p -> (forall a, read_only (f a)) -> read_only (p ≫= f).
Proof.
  unfold mbind, prog_mbind.
  induction p as [a|e|X q k IH|X c k IH]; simpl; intros Hp Hf; try done.
  intros r. by apply IH.
Qed.

Lemma read_only_catch {A} (p : prog A) h :
  read_only p -> (forall e, read_only (h e)) -> read_only (catch p h).
Proof.
  induction p as [a|e|X q k IH|X c k IH]; simpl; intros Hp Hh; try done.
  intros r. by apply IH.
Qed.

Lemma read_only_of_res {A} (r : res A) : read_only (of_res r).
Proof. by destruct r. Qed.

Lemma read_only_ask {X} (q : query X) : read_only (ask q).
Proof. intros r. apply read_only_of_res. Qed.

Lemma read_only_attempt {A} (p : prog A) : read_only p -> read_only (attempt p).
Proof.
  intros Hp. apply read_only_catch; [|done].
  by apply (read_only_bind p (fun a => Ret (Ok a))).
Qed.

Lemma read_only_path_or_None st m : read_only (path_or_None st m).
Proof.
  apply read_only_bind.
  - apply read_only_attempt, read_only_ask.
  - intros [p|e]; [done|]. by destruct (is_NotImplementedError e).
Qed.

Lemma read_only_thumbnail_exists self thumbnail_options :
  read_only (thumbnail_exists self thumbnail_options).
Proof.
  unfold thumbnail_exists.
  apply read_only_bind; [apply read_only_of_res|intros filename].
  apply read_only_bind; [unfold self_name; by destruct (name self)|intros m].
  apply read_only_bind; [apply read_only_path_or_None|intros source_path].
  apply read_only_bind; [apply read_only_path_or_None|intros thumbnail_path].
  destruct (no_path source_path && no_path thumbnail_path);
    [apply read_only_ask|].
  apply read_only_bind;
    [destruct (no_path source_path); [apply read_only_ask|done]|intros sp].
  apply read_only_bind;
    [destruct (no_path thumbnail_path); [apply read_only_ask|done]|intros tp].
  apply read_only_bind; [apply read_only_ask|intros [|]]; [|done].
  apply read_only_bind; [apply read_only_ask|intros [|]]; [|done].
  apply read_only_bind; [apply read_only_ask|intros ms].
  apply read_only_bind; [apply read_only_ask|done].
Qed.

Lemma read_only_generate_thumbnail self thumbnail_options :
  read_only (generate_thumbnail self thumbnail_options).
Proof.
  unfold generate_thumbnail.
  apply read_only_bind; [apply read_only_ask|intros source_image].
  apply read_only_bind; [apply read_only_ask|intros thumbnail_image].
  apply read_only_bind; [apply read_only_ask|intros data].
  apply read_only_bind; [apply read_only_of_res|intros filename].
  destruct (_set_image _ _) as [r thumbnail].
  apply read_only_bind; [apply read_only_of_res|done].
Qed.

(** [generate_thumbnail] returns an uncommitted thumbnail. *)
Lemma generate_thumbnail_uncommitted self thumbnail_options w thumbnail :
  result (run E (generate_thumbnail self thumbnail_options) w) = Ok thumbnail ->
  tf_committed thumbnail = false.
Proof.
  unfold generate_thumbnail. run_simpl.
  destruct (answer E (ImageOpen (file self)) w) as [im|]; simpl; [|done].
  destruct (answer E (ProcessImage im thumbnail_options) w) as [tim|];
    simpl; [|done].
  destruct (answer E (SaveImage tim _) w) as [data|]; simpl; [|done].
  destruct (get_thumbnail_name _ _ _) as [filename|]; simpl; [|done].
  intros [= <-]. done.
Qed.

End ReadOnly.

(* ===================================================================== *)
(** ** [Thumbnailer.get_thumbnail] *)
(* ===================================================================== *)

Section GetThumbnail.
Context {W : Type} (E : env W) (w : W).
Context (self : Thumbnailer) (thumbnail_options : dict).

#[local] Arguments thumbnail_exists : simpl never.
#[local] Arguments generate_thumbnail : simpl never.
#[local] Arguments save_thumbnail : simpl never.
#[local] Arguments mirror_thumbnail : simpl never.

(** [get_thumbnail] on a miss, up to the point where it decides whether
    to store. *)
Lemma run_get_thumbnail_miss thumbnail_name thumbnail save :
  get_thumbnail_name (config self) (name self) thumbnail_options
    = Ok thumbnail_name ->
  result (run E (thumbnail_exists self thumbnail_options) w) = Ok false ->
  result (run E (generate_thumbnail self thumbnail_options) w) = Ok thumbnail ->
  let storing :=
    if save && name_truthy self
    then
      save_thumbnail thumbnail (thumbnail_storage self);;
      if negb (storage_eqb (source_storage self) (thumbnail_storage self))
      then mirror_thumbnail self thumbnail_name thumbnail
      else Ret tt
    else Ret tt in
  result (run E (get_thumbnail self thumbnail_options save) w) =
    res_map (fun _ => thumbnail) (result (run E storing w)) /\
  world (run E (get_thumbnail self thumbnail_options save) w) =
    world (run E storing w).
Proof.
  intros Hname Hexists Hgenerate storing.
  pose proof (read_only_run E _ w
                (read_only_thumbnail_exists self thumbnail_options))
    as [Hw1 _].
  pose proof (read_only_run E _ w
                (read_only_generate_thumbnail self thumbnail_options))
    as [Hw2 _].
  unfold get_thumbnail. rewrite Hname.
  split.
  all: rewrite run_bind, run_of_res; unfold after at 1;
    cbn [result world calls].
  all: rewrite run_bind; unfold after at 1;
    rewrite Hexists, Hw1; cbn [result world calls].
  all: rewrite run_bind; unfold after at 1;
    rewrite Hgenerate, Hw2; cbn [result world calls].
  all: rewrite run_bind; fold storing; unfold after.
  all: by destruct (run E storing w) as [[[]|e] w' l].
Qed.

(** C9, as amended. When [self.name] is falsy, [get_thumbnail] writes
    nothing and leaves the world as it found it, whatever [save] is. When
    the name is the empty string and the freshness check finds no usable
    thumbnail, the call returns the thumbnail that [generate_thumbnail]
    made, which is uncommitted. *)
Theorem get_thumbnail_without_name (save : bool) :
  name_truthy self = false ->
  (world (run E (get_thumbnail self thumbnail_options save) w) = w /\
   existsb is_write
     (calls (run E (get_thumbnail self thumbnail_options save) w)) = false) /\
  (forall thumbnail : ThumbnailFile,
     name self = Some "" ->
     result (run E (thumbnail_exists self thumbnail_options) w) = Ok false ->
     result (run E (generate_thumbnail self thumbnail_options) w)
       = Ok thumbnail ->
     result (run E (get_thumbnail self thumbnail_options save) w)
       = Ok thumbnail /\
     tf_committed thumbnail = false).
Proof.
  intros Hfalsy. split.
  - apply read_only_run. unfold get_thumbnail.
    rewrite Hfalsy, andb_false_r.
    apply read_only_bind; [apply read_only_of_res|intros thumbnail_name].
    apply read_only_bind; [apply read_only_thumbnail_exists|intros [|]];
      [done|].
    apply read_only_bind; [apply read_only_generate_thumbnail|done].
  - intros thumbnail Hname Hexists Hgenerate.
    split; [|by eapply generate_thumbnail_uncommitted].
    destruct (get_thumbnail_name (config self) (name self) thumbnail_options)
      as [thumbnail_name|e] eqn:Hthumbnail_name.
    + destruct (run_get_thumbnail_miss thumbnail_name thumbnail save)
        as [-> _]; try done.
      by rewrite Hfalsy, andb_false_r.
    + unfold thumbnail_exists in Hexists.
      by rewrite Hthumbnail_name in Hexists.
Qed.

(** C4, as amended. On a miss with [save] set and a truthy name, once
    [save_thumbnail] has stored the thumbnail (leaving the world [w1]):
    - if the two storages are the same object, or the thumbnail storage
      has a local path for the thumbnail name, no mirrored copy is
      attempted and [get_thumbnail] returns the generated thumbnail;
    - if the path lookup on the thumbnail storage raises anything but
      [NotImplementedError], [get_thumbnail] raises it too. *)
Theorem get_thumbnail_mirroring
    (thumbnail_name stored_name : string) (thumbnail : ThumbnailFile)
    (w1 : W) :
  name_truthy self = true ->
  get_thumbnail_name (config self) (name self) thumbnail_options
    = Ok thumbnail_name ->
  result (run E (thumbnail_exists self thumbnail_options) w) = Ok false ->
  result (run E (generate_thumbnail self thumbnail_options) w) = Ok thumbnail ->
  result (run E (save_thumbnail thumbnail (thumbnail_storage self)) w)
    = Ok stored_name ->
  world (run E (save_thumbnail thumbnail (thumbnail_storage self)) w) = w1 ->
  let o := run E (get_thumbnail self thumbnail_options true) w in
  (storage_eqb (source_storage self) (thumbnail_storage self) = true ->
   result o = Ok thumbnail /\ world o = w1) /\
  (forall path : string,
     answer E (StoragePath (thumbnail_storage self) thumbnail_name) w1
       = Ok path ->
     result o = Ok thumbnail /\ world o = w1) /\
  (forall e : exn,
     storage_eqb (source_storage self) (thumbnail_storage self) = false ->
     answer E (StoragePath (thumbnail_storage self) thumbnail_name) w1
       = Raise e ->
     e <> NotImplementedError ->
     result o = Raise e /\ world o = w1).
Proof.
  intros Htruthy Hname Hexists Hgenerate Hstored Hw1 o.
  destruct (run_get_thumbnail_miss thumbnail_name thumbnail true)
    as [Hresult Hworld]; try done.
  subst o. rewrite Hresult, Hworld. clear Hresult Hworld.
  rewrite Htruthy; cbn [andb].
  rewrite run_bind. unfold after. rewrite Hstored, Hw1; cbn [result world].
  split; [|split].
  - by intros ->.
  - intros path Hpath.
    destruct (storage_eqb _ _); simpl; [done|].
    unfold mirror_thumbnail. run_simpl. by rewrite Hpath.
  - intros e -> Hpath He; simpl.
    unfold mirror_thumbnail. run_simpl. rewrite Hpath; simpl.
    by destruct e.
Qed.

End GetThumbnail.

(** C9, as stated: with the name [None] the call raises, in
    [get_thumbnail_name], and returns no thumbnail. *)
Lemma get_thumbnail_name_None_raises :
  result (run Demo.demo
              (get_thumbnail (Demo.cat 0 1 None) Demo.cat_options true)
              Demo.empty_fs)
  = Raise AttributeError.
Proof. reflexivity. Qed.

(** A thumbnailer whose name is the empty string. *)
Lemma get_thumbnail_without_name_witness :
  result (run Demo.demo
              (get_thumbnail (Demo.cat 0 1 (Some "")) Demo.cat_options true)
              Demo.empty_fs)
  = Ok (Demo.generated ".100x75_q80.jpg") /\
  world (run Demo.demo
             (get_thumbnail (Demo.cat 0 1 (Some "")) Demo.cat_options true)
             Demo.empty_fs)
  = Demo.empty_fs.
Proof.
  destruct (get_thumbnail_without_name
              Demo.demo Demo.empty_fs (Demo.cat 0 1 (Some ""))
              Demo.cat_options true)
    as [[Hworld _] Hresult]; [reflexivity|].
  split; [|exact Hworld].
  apply (Hresult (Demo.generated ".100x75_q80.jpg")).
  - reflexivity.
  - vm_compute. reflexivity.
  - vm_compute. reflexivity.
Defined.

(** C4, as stated: the thumbnail is stored, the mirroring step then
    fails, and [get_thumbnail] raises instead of returning the thumbnail.
    First with a thumbnail storage whose path lookup fails with an error
    of its own once it holds the thumbnail: only [NotImplementedError]
    is caught. Then with a thumbnail storage that simply has no local
    paths: the step goes on to [self.field_storage], an attribute that
    no class of the module sets, and raises [AttributeError]. *)
Lemma get_thumbnail_mirror_failure_raises :
  (result (run Demo.demo
               (get_thumbnail (Demo.cat 0 4 (Some "photos/cat.jpg"))
                              Demo.cat_options true)
               Demo.empty_fs)
   = Raise (OtherError "connection lost") /\
   world (run Demo.demo
              (get_thumbnail (Demo.cat 0 4 (Some "photos/cat.jpg"))
                             Demo.cat_options true)
              Demo.empty_fs)
   = Demo.add_object 4 "photos/cat.jpg.100x75_q80.jpg" Demo.empty_fs) /\
  (result (run Demo.demo
               (get_thumbnail (Demo.cat 0 1 (Some "photos/cat.jpg"))
                              Demo.cat_options true)
               Demo.empty_fs)
   = Raise AttributeError /\
   world (run Demo.demo
              (get_thumbnail (Demo.cat 0 1 (Some "photos/cat.jpg"))
                             Demo.cat_options true)
              Demo.empty_fs)
   = Demo.add_object 1 "photos/cat.jpg.100x75_q80.jpg" Demo.empty_fs).
Proof. vm_compute. repeat split; reflexivity. Qed.

(** One storage for both sides; and a thumbnail storage whose path
    lookup fails once it holds the thumbnail. *)
Lemma get_thumbnail_mirroring_witness :
  (result (run Demo.demo
               (get_thumbnail (Demo.cat 0 0 (Some "photos/cat.jpg"))
                              Demo.cat_options true)
               Demo.empty_fs)
   = Ok (Demo.generated "photos/cat.jpg.100x75_q80.jpg") /\
   world (run Demo.demo
              (get_thumbnail (Demo.cat 0 0 (Some "photos/cat.jpg"))
                             Demo.cat_options true)
              Demo.empty_fs)
   = Demo.write_file "/media/photos/cat.jpg.100x75_q80.jpg"
                     "thumbnail bytes" Demo.empty_fs) /\
  (result (run Demo.demo
               (get_thumbnail (Demo.cat 0 4 (Some "photos/cat.jpg"))
                              Demo.cat_options true)
               Demo.empty_fs)
   = Raise (OtherError "connection lost") /\
   world (run Demo.demo
              (get_thumbnail (Demo.cat 0 4 (Some "photos/cat.jpg"))
                             Demo.cat_options true)
              Demo.empty_fs)
   = Demo.add_object 4 "photos/cat.jpg.100x75_q80.jpg" Demo.empty_fs).
Proof.
  split.
  - destruct (get_thumbnail_mirroring
                Demo.demo Demo.empty_fs (Demo.cat 0 0 (Some "photos/cat.jpg"))
                Demo.cat_options
                "photos/cat.jpg.100x75_q80.jpg" "photos/cat.jpg.100x75_q80.jpg"
                (Demo.generated "photos/cat.jpg.100x75_q80.jpg")
                (Demo.write_file "/media/photos/cat.jpg.100x75_q80.jpg"
                                 "thumbnail bytes" Demo.empty_fs))
      as (Hsame & _ & _);
      [reflexivity | reflexivity | vm_compute; reflexivity..|].
    apply Hsame. reflexivity.
  - destruct (get_thumbnail_mirroring
                Demo.demo Demo.empty_fs (Demo.cat 0 4 (Some "photos/cat.jpg"))
                Demo.cat_options
                "photos/cat.jpg.100x75_q80.jpg" "photos/cat.jpg.100x75_q80.jpg"
                (Demo.generated "photos/cat.jpg.100x75_q80.jpg")
                (Demo.add_object 4 "photos/cat.jpg.100x75_q80.jpg"
                                 Demo.empty_fs))
      as (_ & _ & Hraise);
      [reflexivity | reflexivity | vm_compute; reflexivity..|].
    apply (Hraise (OtherError "connection lost"));
      [reflexivity | reflexivity | discriminate].
Defined.

(* ===================================================================== *)
(** ** [ThumbnailerFieldFile.save] *)
(* ===================================================================== *)

(** C8. [ThumbnailerFieldFile.save], when the thumbnail storage is not the
    field's storage and the primary save has set the name [self_name]:
    - if the thumbnail storage has a local path for [self_name] and
      nothing exists there, the call makes the directories of the path
      (an [OSError] of [os.makedirs] apart, which it ignores) and then
      does [open(path, 'w').close()], which leaves an empty file; these
      are its last two actions and the outcome of the second is its own;
    - if the thumbnail storage has no local paths, the call writes
      nothing after the primary save and returns normally. *)
Theorem field_file_save_placeholder
    {W} (E : env W) (w w1 : W) (self : ThumbnailerFieldFile)
    (new_name self_name : string) (content : file_ref) :
  storage_eqb (ff_thumbnail_storage self) (ff_field_storage self) = false ->
  perform E (FieldFileSave (ff_field_storage self) new_name content) w
    = (Ok self_name, w1) ->
  (forall (path : string) (r : res unit) (w2 : W),
    answer E (StoragePath (ff_thumbnail_storage self) self_name) w1
      = Ok path ->
    answer E (OsExists path) w1 = Ok false ->
    perform E (OsMakeDirs (PosixPath.dirname path)) w1 = (r, w2) ->
    r = Ok tt \/ r = Raise OSError ->
    run E (save self new_name content) w =
    Outcome (res_map (fun _ => self_name)
                     (perform E (OsOpenWClose path) w2).1)
            (perform E (OsOpenWClose path) w2).2
            [Did (FieldFileSave (ff_field_storage self) new_name content);
             Asked (StoragePath (ff_thumbnail_storage self) self_name);
             Asked (OsExists path);
             Did (OsMakeDirs (PosixPath.dirname path));
             Did (OsOpenWClose path)])
  /\
  (answer E (StoragePath (ff_thumbnail_storage self) self_name) w1
     = Raise NotImplementedError ->
   run E (save self new_name content) w =
   Outcome (Ok self_name) w1
           [Did (FieldFileSave (ff_field_storage self) new_name content);
            Asked (StoragePath (ff_thumbnail_storage self) self_name)]).
Proof.
  intros Hdiffer Hsave. split.
  - intros path r w2 Hpath Hexists Hmakedirs Hr.
    unfold save. rewrite Hdiffer. run_simpl.
    rewrite Hsave; simpl. rewrite Hpath; simpl. rewrite Hexists; simpl.
    rewrite Hmakedirs.
    destruct Hr as [-> | ->]; simpl;
      by destruct (perform E (OsOpenWClose path) w2) as [[[]|e] w3].
  - intros Hpath. unfold save. rewrite Hdiffer. run_simpl.
    rewrite Hsave; simpl. by rewrite Hpath.
Qed.

(** A field on a storage without local paths with a local thumbnail
    storage, where the empty file and its directory appear; and the
    other way round, where nothing is written. *)
Lemma field_file_save_placeholder_witness :
  run Demo.demo
      (save {| ff_field_storage := Storage 1;
               ff_thumbnail_storage := Storage 0 |}
            "photos/cat.jpg" (InMemory "cat"))
      Demo.empty_fs
  = Outcome
      (Ok "photos/cat.jpg")
      (Demo.write_file "/media/photos/cat.jpg" ""
         (Demo.add_dir "/media/photos"
            (Demo.add_object 1 "photos/cat.jpg" Demo.empty_fs)))
      [Did (FieldFileSave (Storage 1) "photos/cat.jpg" (InMemory "cat"));
       Asked (StoragePath (Storage 0) "photos/cat.jpg");
       Asked (OsExists "/media/photos/cat.jpg");
       Did (OsMakeDirs "/media/photos");
       Did (OsOpenWClose "/media/photos/cat.jpg")]
  /\
  run Demo.demo
      (save {| ff_field_storage := Storage 0;
               ff_thumbnail_storage := Storage 1 |}
            "photos/cat.jpg" (InMemory "cat"))
      Demo.empty_fs
  = Outcome
      (Ok "photos/cat.jpg")
      (Demo.write_file "/media/photos/cat.jpg" "cat" Demo.empty_fs)
      [Did (FieldFileSave (Storage 0) "photos/cat.jpg" (InMemory "cat"));
       Asked (StoragePath (Storage 1) "photos/cat.jpg")].
Proof.
  split.
  - destruct (field_file_save_placeholder
                Demo.demo Demo.empty_fs
                (Demo.add_object 1 "photos/cat.jpg" Demo.empty_fs)
                {| ff_field_storage := Storage 1;
                   ff_thumbnail_storage := Storage 0 |}
                "photos/cat.jpg" "photos/cat.jpg" (InMemory "cat"))
      as [Hlocal _]; [reflexivity..|].
    apply (Hlocal "/media/photos/cat.jpg" (Ok tt)
                  (Demo.add_dir "/media/photos"
                     (Demo.add_object 1 "photos/cat.jpg" Demo.empty_fs)));
      [reflexivity | reflexivity | reflexivity | left; reflexivity].
  - destruct (field_file_save_placeholder
                Demo.demo Demo.empty_fs
                (Demo.write_file "/media/photos/cat.jpg" "cat" Demo.empty_fs)
                {| ff_field_storage := Storage 0;
                   ff_thumbnail_storage := Storage 1 |}
                "photos/cat.jpg" "photos/cat.jpg" (InMemory "cat"))
      as [_ Hremote]; [reflexivity..|].
    apply Hremote. reflexivity.
Defined.

(* ===================================================================== *)
(** ** [ThumbnailFile._set_image] *)
(* ===================================================================== *)

(** No [ThumbnailFile] ever has an attribute [_cached_image]. *)
Lemma reachable_no_cached_image (self : ThumbnailFile) :
  reachable self -> tf_dict self !! "_cached_image" = None.
Proof.
  induction 1 as [n f st|self image _ IH|self b _ IH|self d _ IH|self _ IH];
    simpl.
  - done.
  - destruct image as [im|]; simpl.
    + by rewrite !lookup_insert_ne.
    + unfold delattr. destruct (hasattr self "_image_cache"); rewrite ?IH.
      * done.
      * destruct (hasattr self "_dimensions_cache"); [|done].
        destruct (tf_dict self !! "_dimensions_cache"); [simpl|done].
        by rewrite lookup_delete_ne.
  - done.
  - by rewrite lookup_insert_ne.
  - unfold delattr. destruct (tf_dict self !! "_dimensions_cache"); [simpl|done].
    by rewrite lookup_delete_ne.
Qed.

(** Reading [image] keeps a [ThumbnailFile] among those states. *)
Lemma get_image_reachable {W} (E : env W) w (self : ThumbnailFile) a self' :
  reachable self ->
  result (run E (_get_image self) w) = Ok (a, self') ->
  reachable self'.
Proof.
  intros Hreach. unfold _get_image.
  destruct (hasattr self "_image_cache"); run_simpl.
  - destruct (tf_dict self !! "_image_cache"); simpl; [|done].
    by intros [= _ <-].
  - destruct (answer E (ImageOpen (tf_content self)) w) as [im|]; simpl;
      [|done].
    rewrite lookup_insert_ne by done. rewrite lookup_insert_eq; simpl.
    intros [= _ <-].
    by apply (reach_set_image self (Some im)).
Qed.

(** C10. Once the image of a [ThumbnailFile] is cached, assigning a falsy
    value to [image] raises [AttributeError] and leaves the object, its
    cache included, as it was: the branch deletes [_cached_image], which
    the object never has. In particular this is so right after an
    assignment of an image [im], which caches it. *)
Theorem set_image_falsy_raises (self : ThumbnailFile) :
  reachable self ->
  (hasattr self "_image_cache" = true ->
   _set_image self None = (Raise AttributeError, self)) /\
  (forall im : image,
     let cached := (_set_image self (Some im)).2 in
     tf_dict cached !! "_image_cache" = Some (AImage im) /\
     _set_image cached None = (Raise AttributeError, cached)).
Proof.
  intros Hreach.
  assert (forall s, reachable s -> hasattr s "_image_cache" = true ->
                    _set_image s None = (Raise AttributeError, s)) as Hfalsy.
  { intros s Hs Hcache. unfold _set_image, delattr.
    by rewrite Hcache, (reachable_no_cached_image s Hs). }
  split; [by apply Hfalsy|].
  intros im cached.
  assert (tf_dict cached !! "_image_cache" = Some (AImage im)) as Hcached.
  { subst cached; simpl. rewrite lookup_insert_ne by done.
    by rewrite lookup_insert_eq. }
  split; [done|].
  apply Hfalsy.
  - subst cached. by apply reach_set_image.
  - unfold hasattr. rewrite Hcached. by apply bool_decide_eq_true.
Qed.

(** A generated thumbnail, whose image is cached. *)
Lemma set_image_falsy_raises_witness :
  _set_image (Demo.generated "photos/cat.jpg.100x75_q80.jpg") None
  = (Raise AttributeError, Demo.generated "photos/cat.jpg.100x75_q80.jpg").
Proof.
  destruct (set_image_falsy_raises
              (Demo.generated "photos/cat.jpg.100x75_q80.jpg"))
    as [Hcached _].
  - apply reach_committed.
    apply (reach_set_image
             (ThumbnailFile_init "photos/cat.jpg.100x75_q80.jpg"
                                 (Some "thumbnail bytes") None)
             (Some (Image (100, 75) "thumbnail pixels"))).
    apply reach_init.
  - apply Hcached. vm_compute. reflexivity.
Defined.

(* ===================================================================== *)
(** ** Further properties of [get_thumbnail_name] *)
(* ===================================================================== *)

Lemma dict_set_new k v d : k ∉ keys d -> dict_set k v d = (d ++ [(k, v)])%list.
Proof.
  induction d as [|[k' v'] d IH]; simpl; [done|].
  intros [Hne Hk]%not_elem_of_cons.
  destruct (String.eqb_spec k' k); [congruence|]. by rewrite IH.
Qed.

Lemma keys_app (d1 d2 : dict) : keys (d1 ++ d2)%list = (keys d1 ++ keys d2)%list.
Proof. apply fmap_app. Qed.

Lemma wf_dict_snoc k v d : wf_dict d -> k ∉ keys d -> wf_dict (d ++ [(k, v)])%list.
Proof.
  intros Hwf Hk. rewrite <- dict_set_new by done. by apply wf_dict_set.
Qed.

Lemma dict_get_snoc_ne k v d x :
  x <> k -> dict_get x (d ++ [(k, v)])%list = dict_get x d.
Proof.
  intros Hne. induction d as [|[k' v'] d IH]; simpl.
  - by destruct (String.eqb_spec k x); [congruence|].
  - by rewrite IH.
Qed.

Lemma dict_get_snoc_eq k v d :
  k ∉ keys d -> dict_get k (d ++ [(k, v)])%list = Some v.
Proof.
  induction d as [|[k' v'] d IH]; simpl.
  - intros _. by rewrite String.eqb_refl.
  - intros [Hne Hk]%not_elem_of_cons.
    destruct (String.eqb_spec k' k); [congruence|]. by apply IH.
Qed.

Lemma dict_remove_snoc_ne k v d x :
  x <> k -> dict_remove x (d ++ [(k, v)])%list = (dict_remove x d ++ [(k, v)])%list.
Proof.
  intros Hne. induction d as [|[k' v'] d IH]; simpl.
  - by destruct (String.eqb_spec k x); [congruence|].
  - destruct (String.eqb k' x); [done|]. by rewrite IH.
Qed.

Lemma dict_remove_snoc_eq k v d :
  k ∉ keys d -> dict_remove k (d ++ [(k, v)])%list = d.
Proof.
  induction d as [|[k' v'] d IH]; simpl.
  - intros _. by rewrite String.eqb_refl.
  - intros [Hne Hk]%not_elem_of_cons.
    destruct (String.eqb_spec k' k); [congruence|]. by rewrite IH.
Qed.

Lemma not_elem_of_keys_remove k x d : k ∉ keys d -> k ∉ keys (dict_remove x d).
Proof. intros Hk H. by apply Hk, (keys_dict_remove x). Qed.

Lemma sort_items_snoc a (l : list (string * pyval)) :
  NoDup (keys (l ++ [a])%list) ->
  sort_items (l ++ [a])%list = insert_item a (sort_items l).
Proof.
  intros Hnd. apply (sort_items_perm (l ++ [a])%list (a :: l)); [|done].
  by rewrite Permutation_app_comm.
Qed.

Lemma render_options_insert_falsy a (l : list (string * pyval)) :
  truthy (snd a) = false ->
  render_options (insert_item a l) = render_options l.
Proof.
  intros Hfalsy. unfold render_options. f_equal.
  induction l as [|b l IH]; simpl.
  - rewrite filter_cons. destruct (decide _) as [H|H]; [|done].
    by rewrite Hfalsy in H.
  - destruct (item_le a b).
    + rewrite (filter_cons _ a). destruct (decide _) as [H|H]; [|done].
      by rewrite Hfalsy in H.
    + by rewrite !(filter_cons _ b), IH.
Qed.

Lemma all_opts_of_snoc_falsy cfg d k v :
  wf_dict d -> k ∉ keys d -> k <> "size" -> k <> "quality" ->
  truthy v = false ->
  all_opts_of cfg (d ++ [(k, v)])%list = all_opts_of cfg d.
Proof.
  intros Hwf Hk Hsize Hquality Hfalsy.
  unfold all_opts_of, dict_pop, dict_pop_default.
  rewrite dict_get_snoc_ne by done.
  destruct (dict_get "size" d) as [size_value|]; [|done].
  cbn [mbind res_mbind res_bind].
  destruct (tuple_strs size_value) as [size|]; [|done].
  cbn [mbind res_mbind res_bind].
  rewrite dict_remove_snoc_ne by done.
  rewrite dict_get_snoc_ne by done.
  destruct (dict_get "quality" (dict_remove "size" d)) as [quality|].
  - rewrite dict_remove_snoc_ne by done.
    rewrite sort_items_snoc, render_options_insert_falsy; [done..|].
    by apply wf_dict_snoc; repeat first [apply wf_dict_remove
                                         |apply not_elem_of_keys_remove].
  - rewrite sort_items_snoc, render_options_insert_falsy; [done..|].
    by apply wf_dict_snoc; repeat first [apply wf_dict_remove
                                         |apply not_elem_of_keys_remove].
Qed.

(** X1. An option with a falsy value ([False], [None], [0], an empty
    string or tuple) leaves no trace in the name: setting one under a new
    key, other than [size] and [quality], gives the name the options had
    without it. *)
Theorem get_thumbnail_name_ignores_falsy_option
    (cfg : settings) (source_name : option string) (d : dict)
    (k : string) (v : pyval) :
  wf_dict d -> k ∉ keys d -> k <> "size" -> k <> "quality" ->
  truthy v = false ->
  get_thumbnail_name cfg source_name (dict_set k v d)
  = get_thumbnail_name cfg source_name d.
Proof.
  intros Hwf Hk Hsize Hquality Hfalsy. unfold get_thumbnail_name.
  by rewrite dict_set_new, all_opts_of_snoc_falsy.
Qed.

(** Cropping switched off is no cropping. *)
Lemma get_thumbnail_name_ignores_falsy_option_witness :
  get_thumbnail_name default_settings (Some "photos/cat.jpg")
                     (dict_set "crop" (PBool false) Demo.cat_options)
  = get_thumbnail_name default_settings (Some "photos/cat.jpg")
                       Demo.cat_options.
Proof.
  apply (get_thumbnail_name_ignores_falsy_option
           default_settings (Some "photos/cat.jpg") Demo.cat_options
           "crop" (PBool false)).
  - repeat apply wf_dict_set. apply wf_dict_nil.
  - vm_compute. intros H. by repeat (apply elem_of_cons in H as [H|H]);
      [..|apply elem_of_nil in H].
  - discriminate.
  - discriminate.
  - reflexivity.
Defined.

Lemma all_opts_of_snoc_default_quality cfg d :
  wf_dict d -> "quality" ∉ keys d ->
  all_opts_of cfg (d ++ [("quality", thumbnail_quality cfg)])%list
  = all_opts_of cfg d.
Proof.
  intros Hwf Hk.
  unfold all_opts_of, dict_pop, dict_pop_default.
  rewrite dict_get_snoc_ne by done.
  destruct (dict_get "size" d) as [size_value|]; [|done].
  cbn [mbind res_mbind res_bind].
  destruct (tuple_strs size_value) as [size|]; [|done].
  cbn [mbind res_mbind res_bind].
  rewrite dict_remove_snoc_ne by done.
  rewrite dict_get_snoc_eq, dict_remove_snoc_eq
    by by apply not_elem_of_keys_remove.
  by rewrite (dict_get_None "quality" (dict_remove "size" d))
    by by apply not_elem_of_keys_remove.
Qed.

(** X2. Options that name no quality give the name of the same options
    with the quality of the settings written out. *)
Theorem get_thumbnail_name_default_quality
    (cfg : settings) (source_name : option string) (d : dict) :
  wf_dict d -> "quality" ∉ keys d ->
  get_thumbnail_name cfg source_name
                     (dict_set "quality" (thumbnail_quality cfg) d)
  = get_thumbnail_name cfg source_name d.
Proof.
  intros Hwf Hk. unfold get_thumbnail_name.
  by rewrite dict_set_new, all_opts_of_snoc_default_quality.
Qed.

(** A size alone, under settings whose quality is 85. *)
Lemma get_thumbnail_name_default_quality_witness :
  get_thumbnail_name default_settings (Some "photos/cat.jpg")
                     (dict_set "quality" (PInt 85)
                               (dict_set "size" (PTuple [100; 75]) []))
  = get_thumbnail_name default_settings (Some "photos/cat.jpg")
                       (dict_set "size" (PTuple [100; 75]) []).
Proof.
  apply (get_thumbnail_name_default_quality
           default_settings (Some "photos/cat.jpg")
           (dict_set "size" (PTuple [100; 75]) [])).
  - apply wf_dict_set, wf_dict_nil.
  - vm_compute. intros H. by repeat (apply elem_of_cons in H as [H|H]);
      [..|apply elem_of_nil in H].
Defined.

Section Alike.
Implicit Types (a b : string * pyval) (l : list (string * pyval)).

Lemma alike_item_le a a' b b' :
  alike a a' -> alike b b' -> item_le a b = item_le a' b'.
Proof.
  unfold item_le.
  intros [->|(-> & _)] [->|(-> & _)]; done.
Qed.

Lemma alike_insert_item a a' l l' :
  alike a a' -> Forall2 alike l l' ->
  Forall2 alike (insert_item a l) (insert_item a' l').
Proof.
  intros Ha. induction 1 as [|b b' l l' Hb Hl IH]; simpl.
  - constructor; [done|constructor].
  - rewrite (alike_item_le a a' b b') by done.
    destruct (item_le a' b').
    + constructor; [done|]. by constructor.
    + by constructor.
Qed.

Lemma alike_sort_items l l' :
  Forall2 alike l l' -> Forall2 alike (sort_items l) (sort_items l').
Proof.
  induction 1; simpl; [constructor|by apply alike_insert_item].
Qed.

Lemma alike_render_options l l' :
  Forall2 alike l l' -> render_options l = render_options l'.
Proof.
  unfold render_options.
  induction 1 as [|a a' l l' Ha Hl IH]; [done|].
  rewrite !filter_cons.
  assert (truthy a.2 = truthy a'.2 /\ render_option a = render_option a')
    as [Htruthy Hrender].
  { by destruct Ha as [->|(_ & _ & _ & ? & ?)]. }
  rewrite <- Htruthy.
  destruct (decide (truthy a.2)), (decide (truthy a.2)); try done.
  simpl. by rewrite IH, Hrender.
Qed.

Lemma alike_dict_get x l l' :
  x = "size" \/ x = "quality" ->
  Forall2 alike l l' -> dict_get x l = dict_get x l'.
Proof.
  intros Hx. induction 1 as [|[k v] [k' v'] l l' Ha Hl IH]; simpl; [done|].
  destruct Ha as [[= -> ->]|(Hk & Hsize & Hquality & _)]; simpl in *.
  - by rewrite IH.
  - subst k'. destruct (String.eqb_spec k x) as [->|]; [|done].
    by destruct Hx.
Qed.

Lemma alike_dict_remove x l l' :
  Forall2 alike l l' -> Forall2 alike (dict_remove x l) (dict_remove x l').
Proof.
  induction 1 as [|[k v] [k' v'] l l' Ha Hl IH]; simpl; [constructor|].
  assert (k = k') as <- by (by destruct Ha as [[= -> ->]|(? & _)]).
  destruct (String.eqb k x); [done|by constructor].
Qed.

Lemma alike_refl l : Forall2 alike l l.
Proof. induction l; constructor; [by left|done]. Qed.

Lemma alike_dict_set k v v' l :
  dict_get k l = Some v -> alike (k, v) (k, v') ->
  Forall2 alike l (dict_set k v' l).
Proof.
  intros Hget Ha. induction l as [|[k0 v0] l IH]; simpl in *; [done|].
  destruct (String.eqb_spec k0 k) as [->|Hne].
  - injection Hget as ->. constructor; [done|apply alike_refl].
  - constructor; [by left|by apply IH].
Qed.

Lemma alike_all_opts_of cfg l l' :
  Forall2 alike l l' -> all_opts_of cfg l = all_opts_of cfg l'.
Proof.
  intros Hl. unfold all_opts_of, dict_pop, dict_pop_default.
  rewrite (alike_dict_get "size" l l') by auto.
  destruct (dict_get "size" l') as [size_value|]; [|done].
  cbn [mbind res_mbind res_bind].
  destruct (tuple_strs size_value) as [size|]; [|done].
  cbn [mbind res_mbind res_bind].
  rewrite (alike_dict_get "quality" (dict_remove "size" l)
                          (dict_remove "size" l'))
    by auto using alike_dict_remove.
  destruct (dict_get "quality" (dict_remove "size" l')) as [quality|].
  - by rewrite (alike_render_options
                  (sort_items (dict_remove "quality" (dict_remove "size" l)))
                  (sort_items (dict_remove "quality" (dict_remove "size" l'))))
      by auto using alike_sort_items, alike_dict_remove.
  - by rewrite (alike_render_options
                  (sort_items (dict_remove "size" l))
                  (sort_items (dict_remove "size" l')))
      by auto using alike_sort_items, alike_dict_remove.
Qed.

End Alike.

Lemma str_int_nonempty (z : Z) : str_int z <> "".
Proof.
  unfold str_int.
  destruct (Z.to_int z) as [d|d]; simpl; [|done].
  by destruct d.
Qed.

Lemma truthy_str_nonempty (v : pyval) : truthy v = true -> str v <> "".
Proof.
  destruct v as [|[|]|z|s|l]; simpl; try done.
  - intros _. apply str_int_nonempty.
  - by intros ?%negb_true_iff%String.eqb_neq.
  - destruct l as [|x [|y l]]; done.
Qed.

(** X3. The name renders an option's value as text and so cannot tell a
    value from the string that spells it: replacing the truthy value [v]
    of an option (not [True], not under [size] or [quality]) by the
    string [str(v)] gives the same name. So [1] and ['1'] collide. *)
Theorem get_thumbnail_name_spells_values
    (cfg : settings) (source_name : option string) (d : dict)
    (k : string) (v : pyval) :
  dict_get k d = Some v -> k <> "size" -> k <> "quality" ->
  truthy v = true -> is_True v = false ->
  get_thumbnail_name cfg source_name (dict_set k (PStr (str v)) d)
  = get_thumbnail_name cfg source_name d.
Proof.
  intros Hget Hsize Hquality Htruthy Hnot_True. unfold get_thumbnail_name.
  rewrite <- (alike_all_opts_of cfg d (dict_set k (PStr (str v)) d)); [done|].
  apply (alike_dict_set k v); [done|]. right. simpl.
  repeat split; try done.
  - rewrite Htruthy. symmetry. apply negb_true_iff, String.eqb_neq.
    by apply truthy_str_nonempty.
  - unfold and_or. by rewrite Hnot_True.
Qed.

(** An option [{'frames': 1}] and its spelling [{'frames': '1'}]. *)
Lemma get_thumbnail_name_spells_values_witness :
  get_thumbnail_name default_settings (Some "photos/cat.jpg")
    (dict_set "frames" (PStr "1")
              (dict_set "frames" (PInt 1) Demo.cat_options))
  = get_thumbnail_name default_settings (Some "photos/cat.jpg")
      (dict_set "frames" (PInt 1) Demo.cat_options).
Proof.
  apply (get_thumbnail_name_spells_values
           default_settings (Some "photos/cat.jpg")
           (dict_set "frames" (PInt 1) Demo.cat_options)
           "frames" (PInt 1));
    [reflexivity | discriminate | discriminate | reflexivity | reflexivity].
Defined.

Lemma string_app_assoc (a b c : string) : (a ++ b) ++ c = a ++ (b ++ c).
Proof.
  induction a as [|x a IH]; [done|].
  change (String x ((a ++ b) ++ c) = String x (a ++ (b ++ c))).
  by rewrite IH.
Qed.

Lemma endswith_refl (s : string) : endswith s s = true.
Proof. destruct s; cbn [endswith]; by rewrite String.eqb_refl. Qed.

Lemma endswith_app (a b : string) : endswith (a ++ b) b = true.
Proof.
  induction a as [|x a IH]; [apply endswith_refl|].
  change (endswith (String x (a ++ b)) b = true). cbn [endswith].
  rewrite IH. apply orb_true_r.
Qed.

(** [os.path.join] ends in its last component. *)
Lemma join_step_ends (x b : string) : exists pre, PosixPath.join_step x b = pre ++ b.
Proof.
  unfold PosixPath.join_step.
  destruct (startswith b "/"); [by exists ""|].
  destruct (_ || _); [by exists x|].
  exists (x ++ "/"). by rewrite string_app_assoc.
Qed.

Lemma or3_nonempty (a b : string) : or3 a b "jpg" <> "".
Proof.
  unfold or3, str_truthy.
  destruct (String.eqb_spec a ""); simpl; [|done].
  destruct (String.eqb_spec b ""); simpl; done.
Qed.

(** X4. When neither directory template holds [%(opts)s], the name ends
    in the file name made of the prefix, the source file name, the option
    string and the extension, the last three joined by dots; and the
    extension is never empty (forced, else the source's in lower case,
    else [jpg]). *)
Theorem get_thumbnail_name_suffixes
    (cfg : settings) (source_name : string) (d : dict) (n : string) :
  contains "%(opts)s" (thumbnail_basedir cfg) = false ->
  contains "%(opts)s" (thumbnail_subdir cfg) = false ->
  get_thumbnail_name cfg (Some source_name) d = Ok n ->
  let source_filename := (PosixPath.split source_name).2 in
  let extension :=
    or3 (thumbnail_extension cfg)
        (lower (PosixPath.drop 1 (PosixPath.splitext source_filename).2))
        "jpg" in
  exists all_opts : string,
    all_opts_of cfg d = Ok all_opts /\
    endswith n (thumbnail_prefix cfg ++ source_filename ++ "." ++
                all_opts ++ "." ++ extension) = true /\
    extension <> "".
Proof.
  intros Hbasedir Hsubdir Hname source_filename extension.
  unfold get_thumbnail_name in Hname.
  subst source_filename extension.
  destruct (PosixPath.split source_name) as [path source_filename].
  rewrite Hbasedir, Hsubdir in Hname. cbn [orb snd] in *.
  destruct (all_opts_of cfg d) as [all_opts|]; [|done].
  cbn [mbind res_mbind res_bind] in Hname.
  destruct (format_opts (thumbnail_basedir cfg) all_opts) as [basedir|];
    [|done].
  cbn [mbind res_mbind res_bind] in Hname.
  destruct (format_opts (thumbnail_subdir cfg) all_opts) as [subdir|];
    [|done].
  cbn [mbind res_mbind res_bind] in Hname.
  injection Hname as <-.
  exists all_opts. split; [done|]. split; [|apply or3_nonempty].
  unfold PosixPath.join. cbn [fold_left].
  match goal with
  | |- endswith (PosixPath.join_step ?x ?b) _ = true =>
      destruct (join_step_ends x b) as [pre ->]
  end.
  cbn [Py.join]. rewrite !string_app_assoc. apply endswith_app.
Qed.

(** The scenario of the cat, under the default settings. *)
Lemma get_thumbnail_name_suffixes_witness :
  exists all_opts : string,
    all_opts_of default_settings Demo.cat_options = Ok all_opts /\
    endswith "photos/cat.jpg.100x75_q80.jpg"
             ("" ++ "cat.jpg" ++ "." ++ all_opts ++ "." ++ "jpg") = true /\
    "jpg" <> "".
Proof.
  apply (get_thumbnail_name_suffixes
           default_settings "photos/cat.jpg" Demo.cat_options
           "photos/cat.jpg.100x75_q80.jpg");
    reflexivity.
Defined.

(** X5. When a directory template holds [%(opts)s], the options go into
    the directories only: the name ends in the prefix and the source file
    name, to which the extension is appended only if it is not the
    source's own (as written, case included). *)
Theorem get_thumbnail_name_interpolated
    (cfg : settings) (source_name : string) (d : dict) (n : string) :
  contains "%(opts)s" (thumbnail_basedir cfg)
  || contains "%(opts)s" (thumbnail_subdir cfg) = true ->
  get_thumbnail_name cfg (Some source_name) d = Ok n ->
  let source_filename := (PosixPath.split source_name).2 in
  let source_extension :=
    PosixPath.drop 1 (PosixPath.splitext source_filename).2 in
  let extension :=
    or3 (thumbnail_extension cfg) (lower source_extension) "jpg" in
  (extension = source_extension ->
   endswith n (thumbnail_prefix cfg ++ source_filename) = true) /\
  (extension <> source_extension ->
   endswith n (thumbnail_prefix cfg ++ source_filename ++ "." ++ extension)
   = true).
Proof.
  intros Hinterpolated Hname source_filename source_extension extension.
  unfold get_thumbnail_name in Hname.
  subst source_filename source_extension extension.
  destruct (PosixPath.split source_name) as [path source_filename].
  rewrite Hinterpolated in Hname. cbn [snd] in *.
  destruct (all_opts_of cfg d) as [all_opts|]; [|done].
  cbn [mbind res_mbind res_bind] in Hname.
  destruct (format_opts (thumbnail_basedir cfg) all_opts) as [basedir|];
    [|done].
  cbn [mbind res_mbind res_bind] in Hname.
  destruct (format_opts (thumbnail_subdir cfg) all_opts) as [subdir|];
    [|done].
  cbn [mbind res_mbind res_bind] in Hname.
  injection Hname as <-.
  unfold PosixPath.join. cbn [fold_left].
  split; intros Hext.
  - rewrite (proj2 (String.eqb_eq _ _) Hext). cbn [negb Py.join].
    match goal with
    | |- endswith (PosixPath.join_step ?x ?b) _ = true =>
        destruct (join_step_ends x b) as [pre ->]
    end.
    apply endswith_app.
  - rewrite (proj2 (String.eqb_neq _ _) Hext). cbn [negb Py.join].
    match goal with
    | |- endswith (PosixPath.join_step ?x ?b) _ = true =>
        destruct (join_step_ends x b) as [pre ->]
    end.
    rewrite !string_app_assoc. apply endswith_app.
Qed.

(** Options in the sub-directory: [photos/100x75_q80/cat.jpg]. *)
Lemma get_thumbnail_name_interpolated_witness :
  endswith "photos/100x75_q80/cat.jpg" ("" ++ "cat.jpg") = true.
Proof.
  apply (get_thumbnail_name_interpolated
           {| thumbnail_basedir := "";
              thumbnail_subdir := "%(opts)s";
              thumbnail_prefix := "";
              thumbnail_quality := PInt 85;
              thumbnail_extension := "" |}
           "photos/cat.jpg" Demo.cat_options "photos/100x75_q80/cat.jpg");
    reflexivity.
Defined.

(* ===================================================================== *)
(** ** Which calls a computation makes *)
(* ===================================================================== *)

Section AllCalls.
Context {W : Type} (E : env W) (P : call -> bool).

Lemma all_calls_run {A} (p : prog A) w :
  all_calls P p -> forallb P (calls (run E p w)) = true.
Proof.
  revert w. induction p as [a|e|X q k IH|X c k IH]; simpl; intros w; try done.
  - intros [-> Hk]. by apply IH.
  - intros [HP Hk]. destruct (perform E c w) as [r w']; simpl.
    rewrite HP. by apply IH.
Qed.

Lemma all_calls_bind {A B} (p : prog A) (f : A -> prog B) :
  all_calls P p -> (forall a, all_calls P (f a)) -> all_calls P (p ≫= f).
Proof.
  unfold mbind, prog_mbind.
  induction p as [a|e|X q k IH|X c k IH]; simpl; intros Hp Hf; try done.
  - destruct Hp as [HP Hk]. split; [done|]. intros r. by apply IH.
  - destruct Hp as [HP Hk]. split; [done|]. intros r. by apply IH.
Qed.

Lemma all_calls_catch {A} (p : prog A) h :
  all_calls P p -> (forall e, all_calls P (h e)) -> all_calls P (catch p h).
Proof.
  induction p as [a|e|X q k IH|X c k IH]; simpl; intros Hp Hh; try done.
  - destruct Hp as [HP Hk]. split; [done|]. intros r. by apply IH.
  - destruct Hp as [HP Hk]. split; [done|]. intros r. by apply IH.
Qed.

Lemma all_calls_of_res {A} (r : res A) : all_calls P (of_res r).
Proof. by destruct r. Qed.

Lemma all_calls_ask {X} (q : query X) :
  P (Asked q) = true -> all_calls P (ask q).
Proof. intros HP. split; [done|]. intros r. apply all_calls_of_res. Qed.

Lemma all_calls_attempt {A} (p : prog A) :
  all_calls P p -> all_calls P (attempt p).
Proof.
  intros Hp. apply all_calls_catch; [|done].
  by apply (all_calls_bind p (fun a => Ret (Ok a))).
Qed.

End AllCalls.

Lemma freshness_calls_path_or_None st m :
  all_calls is_freshness_call (path_or_None st m).
Proof.
  apply all_calls_bind.
  - by apply all_calls_attempt, all_calls_ask.
  - intros [p|e]; [done|]. by destruct (is_NotImplementedError e).
Qed.

Lemma freshness_calls_thumbnail_exists self thumbnail_options :
  all_calls is_freshness_call (thumbnail_exists self thumbnail_options).
Proof.
  unfold thumbnail_exists.
  apply all_calls_bind; [apply all_calls_of_res|intros filename].
  apply all_calls_bind; [unfold self_name; by destruct (name self)|intros m].
  apply all_calls_bind; [apply freshness_calls_path_or_None|intros sp0].
  apply all_calls_bind; [apply freshness_calls_path_or_None|intros tp0].
  destruct (no_path sp0 && no_path tp0); [by apply all_calls_ask|].
  apply all_calls_bind;
    [destruct (no_path sp0); [by apply all_calls_ask|done]|intros sp].
  apply all_calls_bind;
    [destruct (no_path tp0); [by apply all_calls_ask|done]|intros tp].
  apply all_calls_bind; [by apply all_calls_ask|intros [|]]; [|done].
  apply all_calls_bind; [by apply all_calls_ask|intros [|]]; [|done].
  apply all_calls_bind; [by apply all_calls_ask|intros ms].
  apply all_calls_bind; [by apply all_calls_ask|done].
Qed.

(** X6. Whatever the storages, the options and the outcome,
    [thumbnail_exists] changes nothing: it makes no call but path
    lookups, existence checks on a storage, file tests and reads of
    modification times; it writes nothing, opens no image and leaves the
    world as it found it. *)
Theorem thumbnail_exists_only_looks
    {W} (E : env W) (w : W) (self : Thumbnailer) (thumbnail_options : dict) :
  world (run E (thumbnail_exists self thumbnail_options) w) = w /\
  forallb is_freshness_call
    (calls (run E (thumbnail_exists self thumbnail_options) w)) = true /\
  existsb is_write
    (calls (run E (thumbnail_exists self thumbnail_options) w)) = false.
Proof.
  split; [|split].
  - apply read_only_run, read_only_thumbnail_exists.
  - apply all_calls_run, freshness_calls_thumbnail_exists.
  - apply read_only_run, read_only_thumbnail_exists.
Qed.

(* ===================================================================== *)
(** ** Further properties of [get_thumbnail] and [generate_thumbnail] *)
(* ===================================================================== *)

Lemma after_ext {A B W} (o : outcome A W) (k k' : A -> W -> outcome B W) :
  (forall a w, k a w = k' a w) -> after o k = after o k'.
Proof. intros Hk. unfold after. destruct (result o); by rewrite ?Hk. Qed.

Lemma result_after {A B W} (o : outcome A W) (k : A -> W -> outcome B W) :
  result (after o k) =
  match result o with
  | Ok a => result (k a (world o))
  | Raise e => Raise e
  end.
Proof. unfold after. by destruct (result o). Qed.

Lemma world_after {A B W} (o : outcome A W) (k : A -> W -> outcome B W) :
  world (after o k) =
  match result o with
  | Ok a => world (k a (world o))
  | Raise e => world o
  end.
Proof. unfold after. by destruct (result o). Qed.

Lemma calls_after {A B W} (o : outcome A W) (k : A -> W -> outcome B W) :
  calls (after o k) =
  (calls o ++ match result o with
              | Ok a => calls (k a (world o))
              | Raise e => []
              end)%list.
Proof. unfold after. destruct (result o); by rewrite ?app_nil_r. Qed.

Lemma outcome_eq {A W} (o : outcome A W) r w l :
  result o = r -> world o = w -> calls o = l -> o = Outcome r w l.
Proof. destruct o. simpl. by intros -> -> ->. Qed.

Ltac peel :=
  rewrite ?result_after, ?world_after, ?calls_after;
  cbn [result world calls app].

Section GetThumbnailMore.
Context {W : Type} (E : env W) (w : W).
Context (self : Thumbnailer) (thumbnail_options : dict).

#[local] Arguments thumbnail_exists : simpl never.
#[local] Arguments generate_thumbnail : simpl never.
#[local] Arguments save_thumbnail : simpl never.
#[local] Arguments mirror_thumbnail : simpl never.

(** [get_thumbnail], step by step. *)
Lemma run_get_thumbnail save :
  run E (get_thumbnail self thumbnail_options save) w =
  after (Outcome (get_thumbnail_name (config self) (name self)
                                     thumbnail_options) w [])
    (fun thumbnail_name w =>
  after (run E (thumbnail_exists self thumbnail_options) w)
    (fun found w =>
  if found : bool
  then Outcome (Ok (ThumbnailFile_init thumbnail_name None
                                       (Some (thumbnail_storage self)))) w []
  else
  after (run E (generate_thumbnail self thumbnail_options) w)
    (fun thumbnail w =>
  after (run E (if save && name_truthy self
                then
                  save_thumbnail thumbnail (thumbnail_storage self);;
                  if negb (storage_eqb (source_storage self)
                                       (thumbnail_storage self))
                  then mirror_thumbnail self thumbnail_name thumbnail
                  else Ret tt
                else Ret tt) w)
    (fun _ w => Outcome (Ok thumbnail) w [])))).
Proof.
  unfold get_thumbnail. rewrite run_bind, run_of_res.
  apply after_ext. intros thumbnail_name w1.
  rewrite run_bind. apply after_ext. intros [|] w2; [done|].
  rewrite run_bind. apply after_ext. intros thumbnail w3.
  by rewrite run_bind.
Qed.

Lemma thumbnail_exists_world :
  world (run E (thumbnail_exists self thumbnail_options) w) = w.
Proof. apply read_only_run, read_only_thumbnail_exists. Qed.

Lemma generate_thumbnail_world :
  world (run E (generate_thumbnail self thumbnail_options) w) = w.
Proof. apply read_only_run, read_only_generate_thumbnail. Qed.

(** When the name cannot be made, the freshness check fails the same
    way. *)
Lemma thumbnail_exists_name_error e :
  get_thumbnail_name (config self) (name self) thumbnail_options = Raise e ->
  run E (thumbnail_exists self thumbnail_options) w = Outcome (Raise e) w [].
Proof. intros Hname. unfold thumbnail_exists. by rewrite Hname. Qed.

Lemma thumbnail_exists_name_ok b :
  result (run E (thumbnail_exists self thumbnail_options) w) = Ok b ->
  exists thumbnail_name,
    get_thumbnail_name (config self) (name self) thumbnail_options
    = Ok thumbnail_name.
Proof.
  destruct (get_thumbnail_name _ _ _) as [n|e] eqn:Hname; [by eauto|].
  by rewrite (thumbnail_exists_name_error e).
Qed.

(** X7. On a hit ([thumbnail_exists] answers [True]) [get_thumbnail]
    returns a committed [ThumbnailFile] of the thumbnail's name on the
    thumbnail storage, with no file attached; it makes the calls of the
    freshness check and no other, so it generates and writes nothing. *)
Theorem get_thumbnail_hit (save : bool) :
  result (run E (thumbnail_exists self thumbnail_options) w) = Ok true ->
  exists thumbnail_name,
    get_thumbnail_name (config self) (name self) thumbnail_options
      = Ok thumbnail_name /\
    run E (get_thumbnail self thumbnail_options save) w =
    Outcome
      (Ok {| tf_name := thumbnail_name;
             tf_file := None;
             tf_storage := thumbnail_storage self;
             tf_committed := true;
             tf_dict := ∅ |})
      w
      (calls (run E (thumbnail_exists self thumbnail_options) w)).
Proof.
  intros Hexists.
  destruct (thumbnail_exists_name_ok true Hexists) as [thumbnail_name Hname].
  exists thumbnail_name. split; [done|].
  rewrite run_get_thumbnail, Hname. unfold after at 1; cbn [result world calls].
  unfold after. rewrite Hexists, thumbnail_exists_world; cbn [result world calls].
  by rewrite app_nil_r.
Qed.

(** X8. [get_thumbnail] writes only to store a thumbnail it has just
    generated: if [save] is off, or the name is empty, or the freshness
    check does not answer [False], or the generation fails, the call
    makes no writing call and leaves the world as it found it. *)
Theorem get_thumbnail_writes_only_to_store (save : bool) :
  save = false \/
  name_truthy self = false \/
  result (run E (thumbnail_exists self thumbnail_options) w) <> Ok false \/
  (exists e, result (run E (generate_thumbnail self thumbnail_options) w)
             = Raise e) ->
  world (run E (get_thumbnail self thumbnail_options save) w) = w /\
  existsb is_write
    (calls (run E (get_thumbnail self thumbnail_options save) w)) = false.
Proof.
  intros Hcase.
  pose proof (read_only_run E _ w
                (read_only_thumbnail_exists self thumbnail_options))
    as [Hw1 Hc1].
  pose proof (read_only_run E _ w
                (read_only_generate_thumbnail self thumbnail_options))
    as [Hw2 Hc2].
  rewrite run_get_thumbnail.
  destruct (get_thumbnail_name _ _ _) as [thumbnail_name|e]; peel; [|done].
  peel. rewrite Hw1, existsb_app, Hc1.
  destruct (result (run E (thumbnail_exists self thumbnail_options) w))
    as [[|]|e] eqn:Hexists; [done| |done].
  peel. rewrite Hw2, existsb_app, Hc2.
  destruct (result (run E (generate_thumbnail self thumbnail_options) w))
    as [thumbnail|e] eqn:Hgenerate; [|done].
  assert (save && name_truthy self = false) as ->.
  { destruct Hcase as [->|[->|[?|[e ?]]]];
      [done|apply andb_false_r|congruence..]. }
  by peel.
Qed.

(** X9. [get_thumbnail] and [thumbnail_exists] make the thumbnail's name
    before anything else: when the name cannot be made (options without
    a size, a source without a name) they raise its exception and have
    made no call at all. *)
Theorem get_thumbnail_name_error_first (save : bool) (e : exn) :
  get_thumbnail_name (config self) (name self) thumbnail_options = Raise e ->
  run E (get_thumbnail self thumbnail_options save) w = Outcome (Raise e) w [] /\
  run E (thumbnail_exists self thumbnail_options) w = Outcome (Raise e) w [].
Proof.
  intros Hname. split; [|by apply thumbnail_exists_name_error].
  by rewrite run_get_thumbnail, Hname.
Qed.

(** X10. [generate_thumbnail], when the image engine answers: it opens
    the source image, processes it with the options and encodes the
    outcome at the quality of the options (the default quality if they
    name none), in this order, and only then makes the name. If the name
    cannot be made its exception is raised after those three calls.
    Otherwise the thumbnail has that name, holds the encoded bytes in
    memory, is on the default storage, is not committed, and caches the
    processed image and its size. *)
Theorem generate_thumbnail_outcome
    (source_image thumbnail_image : image) (data : bytes) :
  let quality :=
    default (thumbnail_quality (config self))
            (dict_get "quality" thumbnail_options) in
  answer E (ImageOpen (file self)) w = Ok source_image ->
  answer E (ProcessImage source_image thumbnail_options) w
    = Ok thumbnail_image ->
  answer E (SaveImage thumbnail_image quality) w = Ok data ->
  run E (generate_thumbnail self thumbnail_options) w =
  Outcome
    (filename ← get_thumbnail_name (config self) (name self)
                                    thumbnail_options;
     Ok {| tf_name := filename;
           tf_file := Some data;
           tf_storage := default_storage;
           tf_committed := false;
           tf_dict :=
             <["_dimensions_cache" := ADimensions (im_size thumbnail_image)]>
               (<["_image_cache" := AImage thumbnail_image]> ∅) |})
    w
    [Asked (ImageOpen (file self));
     Asked (ProcessImage source_image thumbnail_options);
     Asked (SaveImage thumbnail_image quality)].
Proof.
  intros quality Hopen Hprocess Hsave. subst quality.
  unfold generate_thumbnail. run_simpl.
  rewrite Hopen; simpl. rewrite Hprocess; simpl. rewrite Hsave; simpl.
  by destruct (get_thumbnail_name _ _ _).
Qed.

Lemma get_image_cached_run {W'} (E' : env W') (w' : W')
    (thumbnail : ThumbnailFile) (a : attr) :
  tf_dict thumbnail !! "_image_cache" = Some a ->
  run E' (_get_image thumbnail) w' = Outcome (Ok (a, thumbnail)) w' [].
Proof.
  intros Hcache. unfold _get_image, hasattr. rewrite Hcache.
  rewrite bool_decide_eq_true_2 by eauto. simpl. by rewrite Hcache.
Qed.

(** X11. Reading [image] on a thumbnail that [generate_thumbnail] has
    returned opens nothing: it gives the image that the engine made of
    the source, from the cache, with no call and no change to the
    thumbnail, in whatever world it is read. *)
Theorem generated_thumbnail_image_cached (thumbnail : ThumbnailFile) :
  result (run E (generate_thumbnail self thumbnail_options) w) = Ok thumbnail ->
  exists source_image thumbnail_image : image,
    answer E (ImageOpen (file self)) w = Ok source_image /\
    answer E (ProcessImage source_image thumbnail_options) w
      = Ok thumbnail_image /\
    forall (W' : Type) (E' : env W') (w' : W'),
      run E' (_get_image thumbnail) w'
      = Outcome (Ok (AImage thumbnail_image, thumbnail)) w' [].
Proof.
  unfold generate_thumbnail. run_simpl.
  destruct (answer E (ImageOpen (file self)) w) as [im|] eqn:Hopen; simpl;
    [|done].
  destruct (answer E (ProcessImage im thumbnail_options) w) as [tim|]
    eqn:Hprocess; simpl; [|done].
  destruct (answer E (SaveImage tim _) w) as [data|]; simpl; [|done].
  destruct (get_thumbnail_name _ _ _) as [filename|]; simpl; [|done].
  intros [= <-]. exists im, tim. split; [done|]. split; [done|].
  intros W' E' w'. apply get_image_cached_run; simpl.
  rewrite lookup_insert_ne by done. apply lookup_insert_eq.
Qed.

Lemma generate_thumbnail_name (thumbnail_name : string)
    (thumbnail : ThumbnailFile) :
  get_thumbnail_name (config self) (name self) thumbnail_options
    = Ok thumbnail_name ->
  result (run E (generate_thumbnail self thumbnail_options) w) = Ok thumbnail ->
  tf_name thumbnail = thumbnail_name.
Proof.
  intros Hname. unfold generate_thumbnail. run_simpl.
  destruct (answer E (ImageOpen (file self)) w) as [im|]; simpl; [|done].
  destruct (answer E (ProcessImage im thumbnail_options) w) as [tim|];
    simpl; [|done].
  destruct (answer E (SaveImage tim _) w) as [data|]; simpl; [|done].
  rewrite Hname; simpl. by intros [= <-].
Qed.

Lemma storage_eqb_refl (st : storage) : storage_eqb st st = true.
Proof. destruct st as [i]; simpl. apply Nat.eqb_refl. Qed.

Lemma asked_writes_thumbnail st thumbnail_name (l : list call) :
  existsb is_write l = false ->
  forallb (writes_thumbnail st thumbnail_name) l = true.
Proof. induction l as [|[X q|X c] l IH]; simpl; [done|exact IH|done]. Qed.

Lemma all_calls_do (P : call -> bool) {X} (c : command X) :
  P (Did c) = true -> all_calls P (do c).
Proof. intros HP. split; [done|]. intros r. apply all_calls_of_res. Qed.

Lemma writes_thumbnail_save_thumbnail (thumbnail : ThumbnailFile) st :
  all_calls (writes_thumbnail st (tf_name thumbnail))
            (save_thumbnail thumbnail st).
Proof.
  assert (storage_eqb st st && (tf_name thumbnail =? tf_name thumbnail)%string
          = true) as Hsame.
  { by rewrite storage_eqb_refl, String.eqb_refl. }
  unfold save_thumbnail.
  apply all_calls_bind; [by apply all_calls_ask|intros [|]].
  - apply all_calls_bind.
    + apply all_calls_catch; [|done]. apply all_calls_do. exact Hsame.
    + intros _. apply all_calls_do. exact Hsame.
  - apply all_calls_bind; [done|].
    intros _. apply all_calls_do. exact Hsame.
Qed.

(** The mirroring step never gets as far as a write. *)
Lemma read_only_mirror_thumbnail thumbnail_name (thumbnail : ThumbnailFile) :
  read_only (mirror_thumbnail self thumbnail_name thumbnail).
Proof.
  unfold mirror_thumbnail.
  apply read_only_bind; [apply read_only_attempt, read_only_ask|].
  intros [p|e]; [done|].
  destruct (is_NotImplementedError e); [|done].
  unfold field_storage. by run_simpl.
Qed.

(** X12. Whatever the storages answer, the only writes of
    [get_thumbnail] are a delete and a save of the thumbnail's own name
    on the thumbnail storage: it never writes to the source storage or
    under another name, and the mirrored copy of its last lines is never
    made. *)
Theorem get_thumbnail_writes_thumbnail_only
    (save : bool) (thumbnail_name : string) :
  get_thumbnail_name (config self) (name self) thumbnail_options
    = Ok thumbnail_name ->
  forallb (writes_thumbnail (thumbnail_storage self) thumbnail_name)
          (calls (run E (get_thumbnail self thumbnail_options save) w)) = true.
Proof.
  intros Hname.
  pose proof (read_only_run E _ w
                (read_only_thumbnail_exists self thumbnail_options))
    as [Hw1 Hc1].
  pose proof (read_only_run E _ w
                (read_only_generate_thumbnail self thumbnail_options))
    as [Hw2 Hc2].
  rewrite run_get_thumbnail, Hname. peel. peel.
  rewrite forallb_app, asked_writes_thumbnail by done. cbn [andb].
  rewrite Hw1.
  destruct (result (run E (thumbnail_exists self thumbnail_options) w))
    as [[|]|e]; [done| |done].
  peel. rewrite forallb_app, asked_writes_thumbnail by done. cbn [andb].
  rewrite Hw2.
  destruct (result (run E (generate_thumbnail self thumbnail_options) w))
    as [thumbnail|e] eqn:Hgenerate; [|done].
  peel. rewrite forallb_app.
  apply andb_true_iff. split; [|by match goal with
                                   | |- context [match ?r with _ => _ end] =>
                                       destruct r
                                   end].
  destruct (save && name_truthy self); [|done].
  rewrite run_bind. peel. rewrite forallb_app.
  apply andb_true_iff. split.
  - rewrite <- (generate_thumbnail_name thumbnail_name thumbnail) by done.
    apply all_calls_run, writes_thumbnail_save_thumbnail.
  - match goal with
    | |- context [match ?r with _ => _ end] => destruct r; [|done]
    end.
    destruct (negb _); [|done].
    apply asked_writes_thumbnail, read_only_run, read_only_mirror_thumbnail.
Qed.

(** X13. What the steps of [get_thumbnail] raise, it raises:
    - an exception of the freshness check, with nothing generated;
    - on a miss, an exception of [generate_thumbnail], with nothing
      written;
    - on a miss with [save] set and a truthy name, an exception of
      [save_thumbnail]: the generated thumbnail is then not returned, and
      the world is as the failed store left it. *)
Theorem get_thumbnail_raises (save : bool) (e : exn) :
  (result (run E (thumbnail_exists self thumbnail_options) w) = Raise e ->
   run E (get_thumbnail self thumbnail_options save) w =
   Outcome (Raise e) w
           (calls (run E (thumbnail_exists self thumbnail_options) w))) /\
  (result (run E (thumbnail_exists self thumbnail_options) w) = Ok false ->
   result (run E (generate_thumbnail self thumbnail_options) w) = Raise e ->
   run E (get_thumbnail self thumbnail_options save) w =
   Outcome (Raise e) w
           (calls (run E (thumbnail_exists self thumbnail_options) w) ++
            calls (run E (generate_thumbnail self thumbnail_options) w))%list)
  /\
  (forall thumbnail : ThumbnailFile,
   save = true -> name_truthy self = true ->
   result (run E (thumbnail_exists self thumbnail_options) w) = Ok false ->
   result (run E (generate_thumbnail self thumbnail_options) w)
     = Ok thumbnail ->
   result (run E (save_thumbnail thumbnail (thumbnail_storage self)) w)
     = Raise e ->
   result (run E (get_thumbnail self thumbnail_options save) w) = Raise e /\
   world (run E (get_thumbnail self thumbnail_options save) w) =
   world (run E (save_thumbnail thumbnail (thumbnail_storage self)) w)).
Proof.
  split; [|split].
  - intros Hexists.
    destruct (get_thumbnail_name (config self) (name self) thumbnail_options)
      as [thumbnail_name|e'] eqn:Hname.
    + rewrite run_get_thumbnail, Hname.
      apply outcome_eq; peel; peel;
        rewrite Hexists, ?thumbnail_exists_world, ?app_nil_r; done.
    + rewrite (thumbnail_exists_name_error e') in Hexists |- * by done.
      injection Hexists as ->.
      by rewrite run_get_thumbnail, Hname.
  - intros Hexists Hgenerate.
    destruct (thumbnail_exists_name_ok false Hexists) as [thumbnail_name Hname].
    rewrite run_get_thumbnail, Hname.
    apply outcome_eq; peel; peel; rewrite Hexists, ?thumbnail_exists_world;
      peel; rewrite Hgenerate, ?generate_thumbnail_world, ?app_nil_r; done.
  - intros thumbnail -> Htruthy Hexists Hgenerate Hstore.
    destruct (thumbnail_exists_name_ok false Hexists) as [thumbnail_name Hname].
    rewrite run_get_thumbnail, Hname, Htruthy. cbn [andb].
    split; peel; peel; rewrite Hexists, ?thumbnail_exists_world;
      peel; rewrite Hgenerate, ?generate_thumbnail_world;
      peel; rewrite run_bind; peel; by rewrite Hstore.
Qed.

End GetThumbnailMore.

(** A fresh local thumbnail: the hit. *)
Lemma get_thumbnail_hit_witness :
  exists thumbnail_name,
    get_thumbnail_name default_settings (Some "photos/cat.jpg")
                       Demo.cat_options
      = Ok thumbnail_name /\
    run Demo.demo
        (get_thumbnail (Demo.cat 0 0 (Some "photos/cat.jpg"))
                       Demo.cat_options true)
        Demo.fresh_fs
    = Outcome
        (Ok {| tf_name := thumbnail_name;
               tf_file := None;
               tf_storage := Storage 0;
               tf_committed := true;
               tf_dict := ∅ |})
        Demo.fresh_fs
        (calls (run Demo.demo
                    (thumbnail_exists (Demo.cat 0 0 (Some "photos/cat.jpg"))
                                      Demo.cat_options)
                    Demo.fresh_fs)).
Proof.
  apply (get_thumbnail_hit Demo.demo Demo.fresh_fs
           (Demo.cat 0 0 (Some "photos/cat.jpg")) Demo.cat_options true).
  vm_compute. reflexivity.
Defined.

(** A miss with [save] off. *)
Lemma get_thumbnail_writes_only_to_store_witness :
  world (run Demo.demo
             (get_thumbnail (Demo.cat 0 1 (Some "photos/cat.jpg"))
                            Demo.cat_options false)
             Demo.empty_fs)
  = Demo.empty_fs /\
  existsb is_write
    (calls (run Demo.demo
                (get_thumbnail (Demo.cat 0 1 (Some "photos/cat.jpg"))
                               Demo.cat_options false)
                Demo.empty_fs))
  = false.
Proof.
  apply (get_thumbnail_writes_only_to_store
           Demo.demo Demo.empty_fs (Demo.cat 0 1 (Some "photos/cat.jpg"))
           Demo.cat_options false).
  left. reflexivity.
Defined.

(** Options without a size. *)
Lemma get_thumbnail_name_error_first_witness :
  run Demo.demo
      (get_thumbnail (Demo.cat 0 1 (Some "photos/cat.jpg"))
                     [("crop", PBool true)] true)
      Demo.empty_fs
  = Outcome (Raise KeyError) Demo.empty_fs [] /\
  run Demo.demo
      (thumbnail_exists (Demo.cat 0 1 (Some "photos/cat.jpg"))
                        [("crop", PBool true)])
      Demo.empty_fs
  = Outcome (Raise KeyError) Demo.empty_fs [].
Proof.
  apply (get_thumbnail_name_error_first
           Demo.demo Demo.empty_fs (Demo.cat 0 1 (Some "photos/cat.jpg"))
           [("crop", PBool true)] true KeyError).
  reflexivity.
Defined.

(** The thumbnail of the cat, and the same call with options that have
    no size. *)
Lemma generate_thumbnail_outcome_witness :
  run Demo.demo
      (generate_thumbnail (Demo.cat 0 1 (Some "photos/cat.jpg"))
                          Demo.cat_options)
      Demo.empty_fs
  = Outcome
      (Ok (Demo.generated "photos/cat.jpg.100x75_q80.jpg"))
      Demo.empty_fs
      [Asked (ImageOpen (InMemory "cat"));
       Asked (ProcessImage (Image (640, 480) "source pixels")
                           Demo.cat_options);
       Asked (SaveImage (Image (100, 75) "thumbnail pixels") (PInt 80))]
  /\
  run Demo.demo
      (generate_thumbnail (Demo.cat 0 1 (Some "photos/cat.jpg"))
                          [("crop", PBool true)])
      Demo.empty_fs
  = Outcome
      (Raise KeyError)
      Demo.empty_fs
      [Asked (ImageOpen (InMemory "cat"));
       Asked (ProcessImage (Image (640, 480) "source pixels")
                           [("crop", PBool true)]);
       Asked (SaveImage (Image (100, 75) "thumbnail pixels") (PInt 85))].
Proof.
  split.
  - etrans.
    + apply (generate_thumbnail_outcome
               Demo.demo Demo.empty_fs (Demo.cat 0 1 (Some "photos/cat.jpg"))
               Demo.cat_options
               (Image (640, 480) "source pixels")
               (Image (100, 75) "thumbnail pixels") "thumbnail bytes");
        reflexivity.
    + vm_compute. reflexivity.
  - etrans.
    + apply (generate_thumbnail_outcome
               Demo.demo Demo.empty_fs (Demo.cat 0 1 (Some "photos/cat.jpg"))
               [("crop", PBool true)]
               (Image (640, 480) "source pixels")
               (Image (100, 75) "thumbnail pixels") "thumbnail bytes");
        reflexivity.
    + vm_compute. reflexivity.
Defined.

(** The thumbnail of the cat, read in another world. *)
Lemma generated_thumbnail_image_cached_witness :
  exists source_image thumbnail_image : image,
    answer Demo.demo (ImageOpen (InMemory "cat")) Demo.empty_fs
      = Ok source_image /\
    answer Demo.demo (ProcessImage source_image Demo.cat_options)
           Demo.empty_fs
      = Ok thumbnail_image /\
    forall (W' : Type) (E' : env W') (w' : W'),
      run E' (_get_image (Demo.generated "photos/cat.jpg.100x75_q80.jpg")) w'
      = Outcome (Ok (AImage thumbnail_image,
                     Demo.generated "photos/cat.jpg.100x75_q80.jpg")) w' [].
Proof.
  apply (generated_thumbnail_image_cached
           Demo.demo Demo.empty_fs (Demo.cat 0 1 (Some "photos/cat.jpg"))
           Demo.cat_options (Demo.generated "photos/cat.jpg.100x75_q80.jpg")).
  vm_compute. reflexivity.
Defined.

(** A miss between a local source storage and a thumbnail storage
    without local paths. *)
Lemma get_thumbnail_writes_thumbnail_only_witness :
  forallb (writes_thumbnail (Storage 1) "photos/cat.jpg.100x75_q80.jpg")
          (calls (run Demo.demo
                      (get_thumbnail (Demo.cat 0 1 (Some "photos/cat.jpg"))
                                     Demo.cat_options true)
                      Demo.empty_fs))
  = true.
Proof.
  apply (get_thumbnail_writes_thumbnail_only
           Demo.demo Demo.empty_fs (Demo.cat 0 1 (Some "photos/cat.jpg"))
           Demo.cat_options true "photos/cat.jpg.100x75_q80.jpg").
  reflexivity.
Defined.

(** A source storage that refuses the path lookup; a world where no
    image can be decoded; a world whose storages are full. *)
Lemma get_thumbnail_raises_witness :
  run Demo.demo
      (get_thumbnail (Demo.cat 3 1 (Some "photos/cat.jpg"))
                     Demo.cat_options true)
      Demo.empty_fs
  = Outcome (Raise (OtherError "SuspiciousOperation")) Demo.empty_fs
            (calls (run Demo.demo
                        (thumbnail_exists
                           (Demo.cat 3 1 (Some "photos/cat.jpg"))
                           Demo.cat_options)
                        Demo.empty_fs))
  /\
  run Demo.unreadable
      (get_thumbnail (Demo.cat 0 1 (Some "photos/cat.jpg"))
                     Demo.cat_options true)
      Demo.empty_fs
  = Outcome (Raise IOError) Demo.empty_fs
            (calls (run Demo.unreadable
                        (thumbnail_exists
                           (Demo.cat 0 1 (Some "photos/cat.jpg"))
                           Demo.cat_options)
                        Demo.empty_fs) ++
             calls (run Demo.unreadable
                        (generate_thumbnail
                           (Demo.cat 0 1 (Some "photos/cat.jpg"))
                           Demo.cat_options)
                        Demo.empty_fs))%list
  /\
  result (run Demo.full
              (get_thumbnail (Demo.cat 0 1 (Some "photos/cat.jpg"))
                             Demo.cat_options true)
              Demo.empty_fs)
  = Raise (OtherError "disk full").
Proof.
  split; [|split].
  - destruct (get_thumbnail_raises
                Demo.demo Demo.empty_fs (Demo.cat 3 1 (Some "photos/cat.jpg"))
                Demo.cat_options true (OtherError "SuspiciousOperation"))
      as (Hexists & _ & _).
    apply Hexists. vm_compute. reflexivity.
  - destruct (get_thumbnail_raises
                Demo.unreadable Demo.empty_fs
                (Demo.cat 0 1 (Some "photos/cat.jpg"))
                Demo.cat_options true IOError)
      as (_ & Hgenerate & _).
    apply Hgenerate; vm_compute; reflexivity.
  - destruct (get_thumbnail_raises
                Demo.full Demo.empty_fs
                (Demo.cat 0 1 (Some "photos/cat.jpg"))
                Demo.cat_options true (OtherError "disk full"))
      as (_ & _ & Hstore).
    apply (Hstore (Demo.generated "photos/cat.jpg.100x75_q80.jpg"));
      vm_compute; reflexivity.
Defined.

(* ===================================================================== *)
(** ** Further properties of [save_thumbnail] *)
(* ===================================================================== *)

(** X14. [save_thumbnail] when the storage answers the existence check:
    - if nothing exists under the thumbnail's name, it deletes nothing:
      it asks and saves, two calls, and its outcome is that of the save;
    - if something exists and the delete succeeds, it saves in the world
      the delete left.
    Either way the save is under the thumbnail's own name and of the
    thumbnail's own content. *)
Theorem save_thumbnail_outcome
    {W} (E : env W) (w w' : W) (thumbnail_file : ThumbnailFile)
    (st : storage) :
  let filename := tf_name thumbnail_file in
  let saving := StorageSave st filename (tf_content thumbnail_file) in
  (answer E (StorageExists st filename) w = Ok false ->
   run E (save_thumbnail thumbnail_file st) w =
   Outcome (perform E saving w).1 (perform E saving w).2
           [Asked (StorageExists st filename); Did saving]) /\
  (answer E (StorageExists st filename) w = Ok true ->
   perform E (StorageDelete st filename) w = (Ok tt, w') ->
   run E (save_thumbnail thumbnail_file st) w =
   Outcome (perform E saving w').1 (perform E saving w').2
           [Asked (StorageExists st filename);
            Did (StorageDelete st filename);
            Did saving]).
Proof.
  intros filename saving. subst filename saving. split.
  - intros Hexists. unfold save_thumbnail. run_simpl.
    rewrite Hexists; simpl.
    destruct (perform E _ w) as [r w'']; simpl.
    by rewrite run_of_res.
  - intros Hexists Hdelete. unfold save_thumbnail. run_simpl.
    rewrite Hexists; simpl. rewrite Hdelete; simpl.
    destruct (perform E _ w') as [r w'']; simpl.
    by rewrite run_of_res.
Qed.

(** A storage that does not hold the thumbnail yet, and one that does
    and can delete it. *)
Lemma save_thumbnail_outcome_witness :
  run Demo.demo
      (save_thumbnail (Demo.generated "photos/cat.jpg.100x75_q80.jpg")
                      (Storage 1))
      Demo.empty_fs
  = Outcome
      (Ok "photos/cat.jpg.100x75_q80.jpg")
      (Demo.add_object 1 "photos/cat.jpg.100x75_q80.jpg" Demo.empty_fs)
      [Asked (StorageExists (Storage 1) "photos/cat.jpg.100x75_q80.jpg");
       Did (StorageSave (Storage 1) "photos/cat.jpg.100x75_q80.jpg"
                        (InMemory "thumbnail bytes"))]
  /\
  run Demo.demo
      (save_thumbnail (Demo.generated "photos/cat.jpg.100x75_q80.jpg")
                      (Storage 1))
      (Demo.add_object 1 "photos/cat.jpg.100x75_q80.jpg" Demo.empty_fs)
  = Outcome
      (Ok "photos/cat.jpg.100x75_q80.jpg")
      (Demo.add_object 1 "photos/cat.jpg.100x75_q80.jpg" Demo.empty_fs)
      [Asked (StorageExists (Storage 1) "photos/cat.jpg.100x75_q80.jpg");
       Did (StorageDelete (Storage 1) "photos/cat.jpg.100x75_q80.jpg");
       Did (StorageSave (Storage 1) "photos/cat.jpg.100x75_q80.jpg"
                        (InMemory "thumbnail bytes"))].
Proof.
  split.
  - destruct (save_thumbnail_outcome
                Demo.demo Demo.empty_fs Demo.empty_fs
                (Demo.generated "photos/cat.jpg.100x75_q80.jpg") (Storage 1))
      as [Hfresh _].
    apply Hfresh. reflexivity.
  - destruct (save_thumbnail_outcome
                Demo.demo
                (Demo.add_object 1 "photos/cat.jpg.100x75_q80.jpg"
                                 Demo.empty_fs)
                Demo.empty_fs
                (Demo.generated "photos/cat.jpg.100x75_q80.jpg") (Storage 1))
      as [_ Hreplace].
    apply Hreplace; reflexivity.
Defined.

(* ===================================================================== *)
(** ** Further properties of [ThumbnailerFieldFile.save] *)
(* ===================================================================== *)

(** X15. [ThumbnailerFieldFile.save] writes no place-holder, and makes no
    directory, when the thumbnail storage is the field's storage (it then
    makes the primary save and no other call) and when something already
    exists at the local path of the saved name, which it leaves as it
    is. *)
Theorem field_file_save_no_placeholder
    {W} (E : env W) (w w1 : W) (self : ThumbnailerFieldFile)
    (new_name self_name : string) (content : file_ref) :
  perform E (FieldFileSave (ff_field_storage self) new_name content) w
    = (Ok self_name, w1) ->
  (storage_eqb (ff_thumbnail_storage self) (ff_field_storage self) = true ->
   run E (save self new_name content) w =
   Outcome (Ok self_name) w1
           [Did (FieldFileSave (ff_field_storage self) new_name content)]) /\
  (forall path : string,
   storage_eqb (ff_thumbnail_storage self) (ff_field_storage self) = false ->
   answer E (StoragePath (ff_thumbnail_storage self) self_name) w1
     = Ok path ->
   answer E (OsExists path) w1 = Ok true ->
   run E (save self new_name content) w =
   Outcome (Ok self_name) w1
           [Did (FieldFileSave (ff_field_storage self) new_name content);
            Asked (StoragePath (ff_thumbnail_storage self) self_name);
            Asked (OsExists path)]).
Proof.
  intros Hsave. split.
  - intros Hsame. unfold save. rewrite Hsame. run_simpl.
    by rewrite Hsave.
  - intros path Hdiffer Hpath Hexists. unfold save. rewrite Hdiffer.
    run_simpl. rewrite Hsave; simpl. rewrite Hpath; simpl.
    by rewrite Hexists.
Qed.

(** A field whose thumbnails are kept on its own storage; and a field on
    a storage without local paths whose local thumbnail storage already
    has a file of the name. *)
Lemma field_file_save_no_placeholder_witness :
  run Demo.demo
      (save {| ff_field_storage := Storage 0;
               ff_thumbnail_storage := Storage 0 |}
            "photos/cat.jpg" (InMemory "cat"))
      Demo.empty_fs
  = Outcome
      (Ok "photos/cat.jpg")
      (Demo.write_file "/media/photos/cat.jpg" "cat" Demo.empty_fs)
      [Did (FieldFileSave (Storage 0) "photos/cat.jpg" (InMemory "cat"))]
  /\
  run Demo.demo
      (save {| ff_field_storage := Storage 1;
               ff_thumbnail_storage := Storage 0 |}
            "photos/cat.jpg" (InMemory "cat"))
      Demo.fresh_fs
  = Outcome
      (Ok "photos/cat.jpg")
      (Demo.add_object 1 "photos/cat.jpg" Demo.fresh_fs)
      [Did (FieldFileSave (Storage 1) "photos/cat.jpg" (InMemory "cat"));
       Asked (StoragePath (Storage 0) "photos/cat.jpg");
       Asked (OsExists "/media/photos/cat.jpg")].
Proof.
  split.
  - destruct (field_file_save_no_placeholder
                Demo.demo Demo.empty_fs
                (Demo.write_file "/media/photos/cat.jpg" "cat" Demo.empty_fs)
                {| ff_field_storage := Storage 0;
                   ff_thumbnail_storage := Storage 0 |}
                "photos/cat.jpg" "photos/cat.jpg" (InMemory "cat"))
      as [Hsame _]; [reflexivity|].
    apply Hsame. reflexivity.
  - destruct (field_file_save_no_placeholder
                Demo.demo Demo.fresh_fs
                (Demo.add_object 1 "photos/cat.jpg" Demo.fresh_fs)
                {| ff_field_storage := Storage 1;
                   ff_thumbnail_storage := Storage 0 |}
                "photos/cat.jpg" "photos/cat.jpg" (InMemory "cat"))
      as [_ Hexisting]; [reflexivity|].
    apply (Hexisting "/media/photos/cat.jpg"); reflexivity.
Defined.

(** X16. What [ThumbnailerFieldFile.save] raises:
    - the exception of the primary save, after which it makes no other
      call;
    - when the storages differ, any exception of the thumbnail storage's
      path lookup but [NotImplementedError]: the call raises although the
      file has been saved. *)
Theorem field_file_save_raises
    {W} (E : env W) (w w1 : W) (self : ThumbnailerFieldFile)
    (new_name : string) (content : file_ref) (e : exn) :
  (perform E (FieldFileSave (ff_field_storage self) new_name content) w
     = (Raise e, w1) ->
   run E (save self new_name content) w =
   Outcome (Raise e) w1
           [Did (FieldFileSave (ff_field_storage self) new_name content)]) /\
  (forall self_name : string,
   perform E (FieldFileSave (ff_field_storage self) new_name content) w
     = (Ok self_name, w1) ->
   storage_eqb (ff_thumbnail_storage self) (ff_field_storage self) = false ->
   answer E (StoragePath (ff_thumbnail_storage self) self_name) w1
     = Raise e ->
   e <> NotImplementedError ->
   run E (save self new_name content) w =
   Outcome (Raise e) w1
           [Did (FieldFileSave (ff_field_storage self) new_name content);
            Asked (StoragePath (ff_thumbnail_storage self) self_name)]).
Proof.
  split.
  - intros Hsave. unfold save. run_simpl. by rewrite Hsave.
  - intros self_name Hsave Hdiffer Hpath He. unfold save. rewrite Hdiffer.
    run_simpl. rewrite Hsave; simpl. rewrite Hpath; simpl.
    by destruct e.
Qed.

(** A field on a storage that is full; and a thumbnail storage that
    refuses the path lookup. *)
Lemma field_file_save_raises_witness :
  run Demo.full
      (save {| ff_field_storage := Storage 1;
               ff_thumbnail_storage := Storage 0 |}
            "photos/cat.jpg" (InMemory "cat"))
      Demo.empty_fs
  = Outcome
      (Raise (OtherError "disk full"))
      Demo.empty_fs
      [Did (FieldFileSave (Storage 1) "photos/cat.jpg" (InMemory "cat"))]
  /\
  run Demo.demo
      (save {| ff_field_storage := Storage 0;
               ff_thumbnail_storage := Storage 3 |}
            "photos/cat.jpg" (InMemory "cat"))
      Demo.empty_fs
  = Outcome
      (Raise (OtherError "SuspiciousOperation"))
      (Demo.write_file "/media/photos/cat.jpg" "cat" Demo.empty_fs)
      [Did (FieldFileSave (Storage 0) "photos/cat.jpg" (InMemory "cat"));
       Asked (StoragePath (Storage 3) "photos/cat.jpg")].
Proof.
  split.
  - destruct (field_file_save_raises
                Demo.full Demo.empty_fs Demo.empty_fs
                {| ff_field_storage := Storage 1;
                   ff_thumbnail_storage := Storage 0 |}
                "photos/cat.jpg" (InMemory "cat") (OtherError "disk full"))
      as [Hprimary _].
    apply Hprimary. reflexivity.
  - destruct (field_file_save_raises
                Demo.demo Demo.empty_fs
                (Demo.write_file "/media/photos/cat.jpg" "cat" Demo.empty_fs)
                {| ff_field_storage := Storage 0;
                   ff_thumbnail_storage := Storage 3 |}
                "photos/cat.jpg" (InMemory "cat")
                (OtherError "SuspiciousOperation"))
      as [_ Hlookup].
    apply (Hlookup "photos/cat.jpg");
      [reflexivity | reflexivity | reflexivity | discriminate].
Defined.

Lemma forallb_negb_existsb {A} (f : A -> bool) (l : list A) :
  forallb (fun a => negb (f a)) l = true -> existsb f l = false.
Proof.
  induction l as [|a l IH]; simpl; [done|].
  intros [Ha Hl]%andb_true_iff. rewrite IH by done.
  by destruct (f a).
Qed.

(** X17. Whatever the storages answer, [ThumbnailerFieldFile.save] starts
    with the primary save on the field's storage, of the content under
    the name it was given, and makes no other write to a storage: the
    place-holder goes through the file system, never through the
    thumbnail storage's [save]. *)
Theorem field_file_save_primary_first
    {W} (E : env W) (w : W) (self : ThumbnailerFieldFile)
    (new_name : string) (content : file_ref) :
  exists rest : list call,
    calls (run E (save self new_name content) w) =
    Did (FieldFileSave (ff_field_storage self) new_name content) :: rest /\
    existsb is_storage_write rest = false.
Proof.
  unfold save. rewrite run_bind, run_do. peel.
  eexists. split; [reflexivity|].
  destruct (perform E _ w).1 as [stored_name|e]; [|done].
  rewrite run_bind. peel.
  rewrite existsb_app. apply orb_false_iff.
  split; [|by match goal with
              | |- context [match ?r with _ => _ end] => destruct r
              end].
  apply forallb_negb_existsb, all_calls_run.
  destruct (negb (storage_eqb _ _)); [|done].
  apply all_calls_bind; [by apply all_calls_attempt, all_calls_ask|].
  intros [path|e]; [|by destruct (is_NotImplementedError e)].
  apply all_calls_bind; [by apply all_calls_ask|intros present].
  destruct (negb present); [|done].
  apply all_calls_bind; [|intros _; by apply all_calls_do].
  apply all_calls_catch; [by apply all_calls_do|].
  intros e. by destruct (is_OSError e).
Qed.

(* ===================================================================== *)
(** ** Further properties of the [image] property of [ThumbnailFile] *)
(* ===================================================================== *)

(** X18. Assigning an image to [image] always succeeds, and what was
    assigned is what is read back: after [self.image = im] the dimensions
    cache holds the size of [im], and reading [image] gives [im] with no
    call, so without opening the file, and leaves the object as it is. *)
Theorem set_image_then_get (self : ThumbnailFile) (im : image) :
  let cached := (_set_image self (Some im)).2 in
  (_set_image self (Some im)).1 = Ok tt /\
  tf_dict cached !! "_dimensions_cache" = Some (ADimensions (im_size im)) /\
  forall (W : Type) (E : env W) (w : W),
    run E (_get_image cached) w = Outcome (Ok (AImage im, cached)) w [].
Proof.
  intros cached. subst cached. split; [done|]. split.
  - simpl. apply lookup_insert_eq.
  - intros W E w. apply get_image_cached_run; simpl.
    rewrite lookup_insert_ne by done. apply lookup_insert_eq.
Qed.

(** X19. The image of a [ThumbnailFile] is opened at most once: a read of
    [image] that returns has made no call if the image was cached, and has
    otherwise opened what the file reads from, once; any later read of the
    object it leaves, in whatever world, makes no call and gives the same
    image. *)
Theorem get_image_opens_once
    {W} (E : env W) (w : W) (self self' : ThumbnailFile) (a : attr) :
  result (run E (_get_image self) w) = Ok (a, self') ->
  calls (run E (_get_image self) w) =
    (if hasattr self "_image_cache"
     then []
     else [Asked (ImageOpen (tf_content self))]) /\
  forall (W' : Type) (E' : env W') (w' : W'),
    run E' (_get_image self') w' = Outcome (Ok (a, self')) w' [].
Proof.
  destruct (hasattr self "_image_cache") eqn:Hcache.
  - unfold hasattr in Hcache.
    apply bool_decide_eq_true in Hcache as [a0 Ha0].
    rewrite (get_image_cached_run E w self a0 Ha0); simpl.
    intros [= <- <-]. split; [done|].
    intros W' E' w'. by apply get_image_cached_run.
  - unfold _get_image. rewrite Hcache. run_simpl.
    destruct (answer E (ImageOpen (tf_content self)) w) as [im|]; simpl;
      [|done].
    rewrite lookup_insert_ne by done. rewrite lookup_insert_eq; simpl.
    intros [= <- <-]. split; [done|].
    intros W' E' w'. apply get_image_cached_run; simpl.
    rewrite lookup_insert_ne by done. apply lookup_insert_eq.
Qed.

(** A thumbnail kept on a storage, as [get_thumbnail] returns it on a
    hit: the first read opens the stored object. *)
Lemma get_image_opens_once_witness :
  calls (run Demo.demo
             (_get_image (ThumbnailFile_init "photos/cat.jpg.100x75_q80.jpg"
                                             None (Some (Storage 1))))
             Demo.empty_fs) =
    [Asked (ImageOpen (Stored (Storage 1) "photos/cat.jpg.100x75_q80.jpg"))]
  /\
  run Demo.demo
      (_get_image
         (_set_image (ThumbnailFile_init "photos/cat.jpg.100x75_q80.jpg"
                                         None (Some (Storage 1)))
                     (Some (Image (640, 480) "source pixels"))).2)
      Demo.fresh_fs =
    Outcome
      (Ok (AImage (Image (640, 480) "source pixels"),
           (_set_image (ThumbnailFile_init "photos/cat.jpg.100x75_q80.jpg"
                                           None (Some (Storage 1)))
                       (Some (Image (640, 480) "source pixels"))).2))
      Demo.fresh_fs [].
Proof.
  destruct (get_image_opens_once
              Demo.demo Demo.empty_fs
              (ThumbnailFile_init "photos/cat.jpg.100x75_q80.jpg"
                                  None (Some (Storage 1)))
              (_set_image (ThumbnailFile_init "photos/cat.jpg.100x75_q80.jpg"
                                              None (Some (Storage 1)))
                          (Some (Image (640, 480) "source pixels"))).2
              (AImage (Image (640, 480) "source pixels")))
    as [Hcalls Hagain]; [vm_compute; reflexivity|].
  split; [exact Hcalls|apply Hagain].
Defined.

Lemma with_dict_same (self : ThumbnailFile) :
  with_dict self (tf_dict self) = self.
Proof. by destruct self. Qed.

(** X20. While no image is cached, assigning a falsy value to [image]
    succeeds: it drops the dimensions cache if there is one and changes
    nothing else. *)
Theorem set_image_falsy_without_cache (self : ThumbnailFile) :
  hasattr self "_image_cache" = false ->
  _set_image self None =
  (Ok tt, with_dict self (delete "_dimensions_cache" (tf_dict self))).
Proof.
  intros Hcache. unfold _set_image. rewrite Hcache.
  unfold hasattr, delattr.
  destruct (tf_dict self !! "_dimensions_cache") as [d|] eqn:Hdimensions.
  - by rewrite bool_decide_eq_true_2 by eauto.
  - rewrite bool_decide_eq_false_2 by (intros [? ?]; done).
    by rewrite delete_id, with_dict_same.
Qed.

(** A thumbnail whose dimensions have been read but whose image has
    not. *)
Lemma set_image_falsy_without_cache_witness :
  _set_image
    (setattr (ThumbnailFile_init "photos/cat.jpg.100x75_q80.jpg" None None)
             "_dimensions_cache" (ADimensions (100, 75)))
    None
  = (Ok tt, ThumbnailFile_init "photos/cat.jpg.100x75_q80.jpg" None None).
Proof.
  etrans.
  - apply (set_image_falsy_without_cache
             (setattr (ThumbnailFile_init "photos/cat.jpg.100x75_q80.jpg"
                                          None None)
                      "_dimensions_cache" (ADimensions (100, 75)))).
    vm_compute. reflexivity.
  - vm_compute. reflexivity.
Defined.

(* ===================================================================== *)
(** ** [ThumbnailerImageFieldFile.save] *)
(* ===================================================================== *)

Lemma dict_get_dict_set k v d : dict_get k (dict_set k v d) = Some v.
Proof.
  induction d as [|[k' v'] d IH]; simpl.
  - by rewrite String.eqb_refl.
  - destruct (String.eqb k' k) eqn:Hk; simpl.
    + by rewrite String.eqb_refl.
    + by rewrite Hk.
Qed.

(** The quality that the resize encodes at. *)
Lemma resize_options_quality (self : ThumbnailerImageFieldFile) options :
  default (thumbnail_quality (iff_config self))
          (dict_get "quality" (resize_options self options)) =
  default (thumbnail_quality (iff_config self))
          (dict_get "quality" options).
Proof.
  unfold resize_options, dict_has.
  destruct (dict_get "quality" options) as [q|] eqn:Hquality; simpl.
  - by rewrite Hquality.
  - by rewrite dict_get_dict_set.
Qed.

(** A source without a name cannot be given a thumbnail. *)
Lemma generate_thumbnail_nameless {W} (E : env W) (w : W)
    (self : Thumbnailer) (thumbnail_options : dict) :
  name self = None ->
  exists e, result (run E (generate_thumbnail self thumbnail_options) w)
            = Raise e.
Proof.
  intros Hname. unfold generate_thumbnail. rewrite Hname. run_simpl.
  destruct (answer E (ImageOpen (file self)) w) as [im|]; simpl;
    [|by eauto].
  destruct (answer E (ProcessImage im thumbnail_options) w) as [tim|];
    simpl; [|by eauto].
  destruct (answer E (SaveImage tim _) w) as [data|]; simpl; by eauto.
Qed.

Section ImageFieldFileSave.
Context {W : Type} (E : env W) (w : W).
Context (self : ThumbnailerImageFieldFile).
Context (new_name : string) (content : file_ref).

#[local] Arguments generate_thumbnail : simpl never.
#[local] Arguments save : simpl never.

(** X21. With resize options on the field, [ThumbnailerImageFieldFile.save]
    saves the resized image and not the content it was given: when the
    resize succeeds, the call goes on as [ThumbnailerFieldFile.save] does
    for the name it was given (not the thumbnail's name) and the bytes
    that the engine encoded, at the quality of the options or, if they
    name none, at the default quality. *)
Theorem image_field_file_save_resized
    (options : dict) (content_name : option string)
    (thumbnail : ThumbnailFile) :
  let source :=
    Thumbnailer_init content content_name None None (iff_config self) in
  let quality :=
    default (thumbnail_quality (iff_config self))
            (dict_get "quality" options) in
  iff_resize_source self = Some options ->
  dict_truthy options = true ->
  result (run E (generate_thumbnail source (resize_options self options)) w)
    = Ok thumbnail ->
  (exists (thumbnail_image : image) (data : bytes),
     answer E (SaveImage thumbnail_image quality) w = Ok data /\
     tf_content thumbnail = InMemory data) /\
  run E (ImageFieldFile.save self new_name content content_name) w =
  let o := run E (save (iff_field_file self) new_name (tf_content thumbnail))
               w in
  Outcome (result o) (world o)
          (calls (run E (generate_thumbnail source
                           (resize_options self options)) w) ++ calls o)%list.
Proof.
  intros source quality Hoptions Htruthy Hgenerate. split.
  - revert Hgenerate. subst quality.
    rewrite <- (resize_options_quality self options).
    unfold generate_thumbnail. run_simpl.
    destruct (answer E (ImageOpen _) w) as [im|]; simpl; [|done].
    destruct (answer E (ProcessImage im _) w) as [tim|]; simpl; [|done].
    destruct (answer E (SaveImage tim _) w) as [data|] eqn:Hencode; simpl;
      [|done].
    destruct (get_thumbnail_name _ _ _) as [filename|]; simpl; [|done].
    intros [= <-]. by exists tim, data.
  - unfold ImageFieldFile.save. rewrite Hoptions, Htruthy.
    fold source. rewrite run_bind.
    pose proof (read_only_run E _ w
                  (read_only_generate_thumbnail
                     source (resize_options self options))) as [Hworld _].
    apply outcome_eq; peel; by rewrite Hgenerate, Hworld.
Qed.

(** X22. With resize options on the field and a content that has no name
    (a [ContentFile]), [ThumbnailerImageFieldFile.save] raises and saves
    nothing: the thumbnailer made of the content has no name to make the
    thumbnail's name from. *)
Theorem image_field_file_save_nameless (options : dict) :
  iff_resize_source self = Some options ->
  dict_truthy options = true ->
  let o := run E (ImageFieldFile.save self new_name content None) w in
  (exists e, result o = Raise e) /\
  world o = w /\
  existsb is_write (calls o) = false.
Proof.
  intros Hoptions Htruthy o. subst o.
  unfold ImageFieldFile.save. rewrite Hoptions, Htruthy.
  rewrite run_bind.
  pose proof (read_only_run E _ w
                (read_only_generate_thumbnail
                   (Thumbnailer_init content None None None (iff_config self))
                   (resize_options self options))) as [Hworld Hcalls].
  destruct (generate_thumbnail_nameless E w
              (Thumbnailer_init content None None None (iff_config self))
              (resize_options self options)) as [e He]; [done|].
  split; [|split]; peel; rewrite He.
  - by exists e.
  - exact Hworld.
  - by rewrite app_nil_r.
Qed.

End ImageFieldFileSave.

(** An upload named [cat.jpg] saved as [photos/cat.jpg] by a field that
    resizes to 100x75. *)
Lemma image_field_file_save_resized_witness :
  run Demo.demo
      (ImageFieldFile.save
         {| iff_field_file := {| ff_field_storage := Storage 0;
                                 ff_thumbnail_storage := Storage 0 |};
            iff_resize_source := Some [("size", PTuple [100; 75])];
            iff_config := default_settings |}
         "photos/cat.jpg" (InMemory "cat") (Some "cat.jpg"))
      Demo.empty_fs
  = Outcome
      (Ok "photos/cat.jpg")
      (Demo.write_file "/media/photos/cat.jpg" "thumbnail bytes"
                       Demo.empty_fs)
      [Asked (ImageOpen (InMemory "cat"));
       Asked (ProcessImage (Image (640, 480) "source pixels")
                           [("size", PTuple [100; 75]);
                            ("quality", PInt 85)]);
       Asked (SaveImage (Image (100, 75) "thumbnail pixels") (PInt 85));
       Did (FieldFileSave (Storage 0) "photos/cat.jpg"
                          (InMemory "thumbnail bytes"))].
Proof.
  destruct (image_field_file_save_resized
              Demo.demo Demo.empty_fs
              {| iff_field_file := {| ff_field_storage := Storage 0;
                                      ff_thumbnail_storage := Storage 0 |};
                 iff_resize_source := Some [("size", PTuple [100; 75])];
                 iff_config := default_settings |}
              "photos/cat.jpg" (InMemory "cat")
              [("size", PTuple [100; 75])] (Some "cat.jpg")
              (Demo.generated "cat.jpg.100x75_q85.jpg"))
    as [_ Hrun]; [reflexivity | reflexivity | vm_compute; reflexivity |].
  etrans; [exact Hrun|]. vm_compute. reflexivity.
Defined.

(** The same field given a content without a name. *)
Lemma image_field_file_save_nameless_witness :
  (exists e,
     result
       (run Demo.demo
              (ImageFieldFile.save
                 {| iff_field_file := {| ff_field_storage := Storage 0;
                                         ff_thumbnail_storage := Storage 0 |};
                    iff_resize_source := Some [("size", PTuple [100; 75])];
                    iff_config := default_settings |}
                 "photos/cat.jpg" (InMemory "cat") None)
              Demo.empty_fs)
     = Raise e) /\
  world
    (run Demo.demo
           (ImageFieldFile.save
              {| iff_field_file := {| ff_field_storage := Storage 0;
                                      ff_thumbnail_storage := Storage 0 |};
                 iff_resize_source := Some [("size", PTuple [100; 75])];
                 iff_config := default_settings |}
              "photos/cat.jpg" (InMemory "cat") None)
           Demo.empty_fs)
  = Demo.empty_fs /\
  existsb is_write
    (calls
       (run Demo.demo
              (ImageFieldFile.save
                 {| iff_field_file := {| ff_field_storage := Storage 0;
                                         ff_thumbnail_storage := Storage 0 |};
                    iff_resize_source := Some [("size", PTuple [100; 75])];
                    iff_config := default_settings |}
                 "photos/cat.jpg" (InMemory "cat") None)
              Demo.empty_fs))
  = false.
Proof.
  apply (image_field_file_save_nameless
           Demo.demo Demo.empty_fs
           {| iff_field_file := {| ff_field_storage := Storage 0;
                                   ff_thumbnail_storage := Storage 0 |};
              iff_resize_source := Some [("size", PTuple [100; 75])];
              iff_config := default_settings |}
           "photos/cat.jpg" (InMemory "cat") [("size", PTuple [100; 75])]);
    reflexivity.
Defined.

(* ===================================================================== *)
(** ** Failing lookups in [thumbnail_exists] *)
(* ===================================================================== *)

(** X23. [thumbnail_exists] takes only [NotImplementedError] for "no
    local paths": any other exception of the source storage's path
    lookup is raised, after that one call; any other exception of the
    thumbnail storage's lookup is raised after the two lookups. Nothing
    else is asked. *)
Theorem thumbnail_exists_lookup_raises
    {W} (E : env W) (w : W) (self : Thumbnailer) (thumbnail_options : dict)
    (n filename : string) (e : exn) :
  name self = Some n ->
  get_thumbnail_name (config self) (name self) thumbnail_options
    = Ok filename ->
  e <> NotImplementedError ->
  (answer E (StoragePath (source_storage self) n) w = Raise e ->
   run E (thumbnail_exists self thumbnail_options) w =
   Outcome (Raise e) w [Asked (StoragePath (source_storage self) n)]) /\
  ((exists sp, answer E (StoragePath (source_storage self) n) w = Ok sp) \/
   answer E (StoragePath (source_storage self) n) w
     = Raise NotImplementedError ->
   answer E (StoragePath (thumbnail_storage self) filename) w = Raise e ->
   run E (thumbnail_exists self thumbnail_options) w =
   Outcome (Raise e) w
           [Asked (StoragePath (source_storage self) n);
            Asked (StoragePath (thumbnail_storage self) filename)]).
Proof.
  intros Hname Hfilename He. split.
  - intros Hsource.
    unfold thumbnail_exists, self_name, path_or_None.
    rewrite Hfilename, Hname. run_simpl. rewrite Hsource; simpl.
    by destruct e.
  - intros Hsource Hthumbnail.
    unfold thumbnail_exists, self_name, path_or_None.
    rewrite Hfilename, Hname. run_simpl.
    destruct Hsource as [[sp ->]| ->]; simpl; rewrite Hthumbnail; simpl;
      by destruct e.
Qed.

(** A source storage, then a thumbnail storage, that refuses the path
    lookup. *)
Lemma thumbnail_exists_lookup_raises_witness :
  run Demo.demo
      (thumbnail_exists (Demo.cat 3 1 (Some "photos/cat.jpg"))
                        Demo.cat_options)
      Demo.empty_fs
  = Outcome (Raise (OtherError "SuspiciousOperation")) Demo.empty_fs
            [Asked (StoragePath (Storage 3) "photos/cat.jpg")]
  /\
  run Demo.demo
      (thumbnail_exists (Demo.cat 0 3 (Some "photos/cat.jpg"))
                        Demo.cat_options)
      Demo.empty_fs
  = Outcome (Raise (OtherError "SuspiciousOperation")) Demo.empty_fs
            [Asked (StoragePath (Storage 0) "photos/cat.jpg");
             Asked (StoragePath (Storage 3) "photos/cat.jpg.100x75_q80.jpg")].
Proof.
  split.
  - destruct (thumbnail_exists_lookup_raises
                Demo.demo Demo.empty_fs (Demo.cat 3 1 (Some "photos/cat.jpg"))
                Demo.cat_options "photos/cat.jpg"
                "photos/cat.jpg.100x75_q80.jpg"
                (OtherError "SuspiciousOperation"))
      as [Hsource _]; [reflexivity | reflexivity | discriminate |].
    apply Hsource. reflexivity.
  - destruct (thumbnail_exists_lookup_raises
                Demo.demo Demo.empty_fs (Demo.cat 0 3 (Some "photos/cat.jpg"))
                Demo.cat_options "photos/cat.jpg"
                "photos/cat.jpg.100x75_q80.jpg"
                (OtherError "SuspiciousOperation"))
      as [_ Hthumbnail]; [reflexivity | reflexivity | discriminate |].
    apply Hthumbnail; [|reflexivity].
    left. exists "/media/photos/cat.jpg". reflexivity.
Defined.

(* ===================================================================== *)
(** ** What [get_thumbnail] stores *)
(* ===================================================================== *)

Lemma save_thumbnail_saves {W} (E : env W) (w : W)
    (thumbnail_file : ThumbnailFile) (st : storage) (found : bool) :
  answer E (StorageExists st (tf_name thumbnail_file)) w = Ok found ->
  Did (StorageSave st (tf_name thumbnail_file) (tf_content thumbnail_file))
  ∈ calls (run E (save_thumbnail thumbnail_file st) w).
Proof.
  intros Hexists. unfold save_thumbnail. run_simpl.
  rewrite Hexists; simpl. destruct found; simpl.
  - destruct (perform E (StorageDelete _ _) w) as [[[]|e] w1]; simpl;
      destruct (perform E (StorageSave _ _ _) w1) as [r w2]; simpl;
      set_solver.
  - destruct (perform E (StorageSave _ _ _) w) as [r w2]; simpl.
    set_solver.
Qed.

Section GetThumbnailStores.
Context {W : Type} (E : env W) (w : W).
Context (self : Thumbnailer) (thumbnail_options : dict).

#[local] Arguments thumbnail_exists : simpl never.
#[local] Arguments generate_thumbnail : simpl never.
#[local] Arguments save_thumbnail : simpl never.
#[local] Arguments mirror_thumbnail : simpl never.

(** X24. On a miss with [save] set and a truthy name, once the thumbnail
    storage has answered whether the name is taken, [get_thumbnail]
    saves the generated thumbnail on the thumbnail storage under the name
    that [get_thumbnail_name] gives, which is the name the freshness
    check looked for and the thumbnail's own. *)
Theorem get_thumbnail_stores_thumbnail
    (thumbnail_name : string) (thumbnail : ThumbnailFile) (found : bool) :
  name_truthy self = true ->
  get_thumbnail_name (config self) (name self) thumbnail_options
    = Ok thumbnail_name ->
  result (run E (thumbnail_exists self thumbnail_options) w) = Ok false ->
  result (run E (generate_thumbnail self thumbnail_options) w) = Ok thumbnail ->
  answer E (StorageExists (thumbnail_storage self) thumbnail_name) w
    = Ok found ->
  tf_name thumbnail = thumbnail_name /\
  Did (StorageSave (thumbnail_storage self) thumbnail_name
                   (tf_content thumbnail))
  ∈ calls (run E (get_thumbnail self thumbnail_options true) w).
Proof.
  intros Htruthy Hname Hexists Hgenerate Hfound.
  assert (tf_name thumbnail = thumbnail_name) as Hsame
    by (by apply (generate_thumbnail_name E w self thumbnail_options)).
  split; [done|].
  rewrite run_get_thumbnail, Hname, Htruthy. cbn [andb].
  peel. peel. rewrite Hexists, thumbnail_exists_world.
  peel. rewrite Hgenerate, generate_thumbnail_world.
  peel. rewrite run_bind. peel.
  rewrite !elem_of_app. right. right. left. left.
  rewrite <- Hsame in Hfound |- *.
  by apply (save_thumbnail_saves E w thumbnail _ found).
Qed.

End GetThumbnailStores.

(** The thumbnail of the cat, kept on the storage of the source. *)
Lemma get_thumbnail_stores_thumbnail_witness :
  Did (StorageSave (Storage 0) "photos/cat.jpg.100x75_q80.jpg"
                   (InMemory "thumbnail bytes"))
  ∈ calls (run Demo.demo
               (get_thumbnail (Demo.cat 0 0 (Some "photos/cat.jpg"))
                              Demo.cat_options true)
               Demo.empty_fs).
Proof.
  destruct (get_thumbnail_stores_thumbnail
              Demo.demo Demo.empty_fs (Demo.cat 0 0 (Some "photos/cat.jpg"))
              Demo.cat_options "photos/cat.jpg.100x75_q80.jpg"
              (Demo.generated "photos/cat.jpg.100x75_q80.jpg") false)
    as [_ Hstored];
    [reflexivity | reflexivity | vm_compute; reflexivity
    | vm_compute; reflexivity | reflexivity |].
  exact Hstored.
Defined.
